(** * SmartStep: capture, tagging, analysis request and consultation summary

  A shallow embedding of the stateful logic of the SmartStep client:

  - [Uploader]     : components/ImageUploader.tsx  (manual capture and tagging)
  - [Scanner]      : components/LiveScanner.tsx    (guided live scan)
  - [Gemini]       : services/geminiService.ts     (analysis request)
  - [Telemedicine] : components/TelemedicineModal.tsx (consultation summary)

  - [App]          : App.tsx                       (mode, image set, analysis)

  React state is modelled by explicit state passing: every handler is a
  function from the component state (and the values the browser hands to
  it) to the next component state.  One handler runs to completion, and the
  component re-renders, before the next event is dispatched.  What a
  handler leaves to a promise or a callback (the answer of the camera, the
  blob of a capture, the answer of the analysis) is an event of its own,
  which may come after other events. *)

From Stdlib Require Import ZArith String Ascii List Lia DecimalString.
From stdpp Require Import base list strings.

Local Open Scope string_scope.
Local Open Scope list_scope.

(** ** Shared data: view keys, three-slot records, files *)

(** [type ViewKey = 'top' | 'side' | 'back'] *)
Inductive ViewKey : Type := top | side | back.

#[export] Instance ViewKey_eq_dec : EqDecision ViewKey.
Proof. solve_decision. Defined.

(** The string a view key is at run time. *)
Definition keyName (k : ViewKey) : string :=
  match k with top => "top" | side => "side" | back => "back" end.

(** [Record<ViewKey, A>]: an object with exactly the keys top, side, back. *)
Record Slots (A : Type) : Type := mkSlots { at_top : A; at_side : A; at_back : A }.
Arguments mkSlots {A} _ _ _.
Arguments at_top {A} _.
Arguments at_side {A} _.
Arguments at_back {A} _.

(** [o[k]] *)
Definition get {A} (k : ViewKey) (o : Slots A) : A :=
  match k with top => at_top o | side => at_side o | back => at_back o end.

(** [o[k] = x] on a copy of [o] *)
Definition set {A} (k : ViewKey) (x : A) (o : Slots A) : Slots A :=
  match k with
  | top => mkSlots x (at_side o) (at_back o)
  | side => mkSlots (at_top o) x (at_back o)
  | back => mkSlots (at_top o) (at_side o) x
  end.

(** [Object.keys(o)]: the keys in the order the object literals list them. *)
Definition keys : list ViewKey := [top; side; back].

(** [{ top: null, side: null, back: null }] *)
Definition allNull {A} : Slots (option A) := mkSlots None None None.

(** What the code reads of a browser [File]. *)
Record File : Type := mkFile {
  name : string;
  lastModified : Z;
  type : string
}.

(** ** Manual capture and tagging (components/ImageUploader.tsx) *)
Module Uploader.

(** [type ImageFile = { id: string; file: File; preview: string }] *)
Record ImageFile : Type := mkImageFile {
  id : string;
  file : File;
  preview : string
}.

(** [type Tags = Record<ViewKey, string | null>] *)
Definition Tags : Type := Slots (option string).

(** The two [useState] cells of the component. *)
Record State : Type := mkState {
  imageFiles : list ImageFile;
  tags : Tags
}.

(** [useState([])], [useState({ top: null, side: null, back: null })] *)
Definition init : State := mkState [] allNull.

(** What the browser contributes to one call of [handleFiles]: the text of
    the i-th [Math.random()] drawn by the call and the i-th URL handed out
    by [URL.createObjectURL]. *)
Record Browser : Type := mkBrowser {
  random : nat -> string;
  createObjectURL : nat -> string
}.

(** [`${n}`] for an integer-valued number (a time stamp in milliseconds). *)
Definition showZ (n : Z) : string := NilEmpty.string_of_int (Z.to_int n).

(** [arr.slice(0, e)]: a negative end counts from the end of the array. *)
Definition slice0 {A} (e : Z) (arr : list A) : list A :=
  let len := Z.of_nat (length arr) in
  let k := if (e <? 0)%Z then Z.max (len + e) 0 else Z.min e len in
  take (Z.to_nat k) arr.

(** [file.type.startsWith('image/')] *)
Definition isImage (f : File) : bool := String.prefix "image/" (type f).

(** [handleFiles(files)]; [files] is [None] for a null [FileList]. *)
Definition handleFiles (env : Browser) (files : option (list File)) (st : State) : State :=
  match files with
  | None => st
  | Some files =>
      let newFiles :=
        imap (fun i f =>
                {| id := name f +:+ "-" +:+ showZ (lastModified f) +:+ "-" +:+ random env i;
                   file := f;
                   preview := createObjectURL env i |})
             (slice0 (3 - Z.of_nat (length (imageFiles st)))
                     (List.filter isImage files)) in
      mkState (imageFiles st ++ newFiles) (tags st)
  end.

(** [newTags[key] === imageId] *)
Definition holds (t : Tags) (key : ViewKey) (imageId : string) : bool :=
  match get key t with
  | Some i => String.eqb i imageId
  | None => false
  end.

(** The loop shared by [removeImage] and [handleTag]:
    [Object.keys(newTags).forEach(key => { if (newTags[key] === id) newTags[key] = null })] *)
Definition clearId (imageId : string) (newTags : Tags) : Tags :=
  foldl (fun t key => if holds t key imageId then set key None t else t) newTags keys.

(** [removeImage(idToRemove)] *)
Definition removeImage (idToRemove : string) (st : State) : State :=
  mkState
    (List.filter (fun img => negb (String.eqb (id img) idToRemove)) (imageFiles st))
    (clearId idToRemove (tags st)).

(** The updater inside [handleTag(imageId, viewKey)] *)
Definition tagUpdate (imageId : string) (viewKey : ViewKey) (prev : Tags) : Tags :=
  let newTags := prev in
  if holds newTags viewKey imageId then set viewKey None newTags
  else set viewKey (Some imageId) (clearId imageId newTags).

(** [handleTag(imageId, viewKey)] *)
Definition handleTag (imageId : string) (viewKey : ViewKey) (st : State) : State :=
  mkState (imageFiles st) (tagUpdate imageId viewKey (tags st)).

(** The projection computed by the [useEffect]: for each view with a truthy
    tag ([if (imageId)]) the file of [imageFiles.find(img => img.id ===
    imageId)], if there is one. *)
Definition taggedFiles (st : State) : Slots (option File) :=
  let resolve (k : ViewKey) :=
    match get k (tags st) with
    | Some imageId =>
        if String.eqb imageId EmptyString then None
        else
          match List.find (fun img => String.eqb (id img) imageId) (imageFiles st) with
          | Some img => Some (file img)
          | None => None
          end
    | None => None
    end in
  mkSlots (resolve top) (resolve side) (resolve back).

(** The three operations of the component. *)
Inductive Op : Type :=
| AddFiles (env : Browser) (files : option (list File))
| RemoveImage (imageId : string)
| TagImage (imageId : string) (viewKey : ViewKey).

Definition apply (op : Op) (st : State) : State :=
  match op with
  | AddFiles env files => handleFiles env files st
  | RemoveImage i => removeImage i st
  | TagImage i k => handleTag i k st
  end.

(** Run the operations in order, the first of the list first. *)
Definition run (ops : list Op) (st : State) : State := foldl (fun s op => apply op s) st ops.

(** [imageFiles.some(img => img.id === i)] *)
Definition present (i : string) (st : State) : bool :=
  existsb (fun img => String.eqb (id img) i) (imageFiles st).

(** No two distinct slots hold the same identity. *)
Definition distinctSlots (t : Tags) : Prop :=
  forall k1 k2 i, get k1 t = Some i -> get k2 t = Some i -> k1 = k2.

(** Every identity held by a slot is the identity of a held image. *)
Definition slotsPresent (st : State) : Prop :=
  forall k i, get k (tags st) = Some i -> present i st = true.

(** The invariant claimed of the slot-tag map. *)
Definition tagsOk (st : State) : Prop := distinctSlots (tags st) /\ slotsPresent st.

(** Every [TagImage] of the run names an image held at the time of the
    call, as the tag buttons of a rendered thumbnail do. *)
Fixpoint tagsHeld (ops : list Op) (st : State) : bool :=
  match ops with
  | [] => true
  | op :: rest =>
      match op with
      | TagImage i _ => present i st
      | _ => true
      end && tagsHeld rest (apply op st)
  end.

(** [claimedView] of a thumbnail:
    [Object.keys(tags).find(key => tags[key] === image.id)] *)
Definition claimedView (t : Tags) (imageId : string) : option ViewKey :=
  List.find (fun key => holds t key imageId) keys.

(** [isDisabled] of the tag button [key] of a thumbnail:
    [tags[key] !== null && tags[key] !== image.id] *)
Definition isDisabled (t : Tags) (imageId : string) (key : ViewKey) : bool :=
  match get key t with
  | Some i => negb (String.eqb i imageId)
  | None => false
  end.

(** What the rendered uploader can receive: files given to the input or
    dropped, a click on the remove button of the n-th thumbnail, a click on a
    tag button of the n-th thumbnail.  The handlers are closures of the
    component and have no other caller.  (The input, the drop zone and the
    buttons that are not rendered or are disabled while an analysis runs
    receive nothing, which only removes events.) *)
Inductive Click : Type :=
| GiveFiles (env : Browser) (files : option (list File))
| ClickRemove (n : nat)
| ClickTag (n : nat) (key : ViewKey).

(** [imageFiles.map(img => <ImageThumbnail image={img} />)]: the buttons of
    the n-th thumbnail call [removeImage(image.id)] and, unless disabled,
    [handleTag(image.id, key)]. *)
Definition click (c : Click) (st : State) : State :=
  match c with
  | GiveFiles env files => handleFiles env files st
  | ClickRemove n =>
      match imageFiles st !! n with
      | Some image => removeImage (id image) st
      | None => st
      end
  | ClickTag n key =>
      match imageFiles st !! n with
      | Some image =>
          if isDisabled (tags st) (id image) key then st
          else handleTag (id image) key st
      | None => st
      end
  end.

(** The clicks in order, the first of the list first. *)
Definition clicks (cs : list Click) (st : State) : State :=
  foldl (fun s c => click c s) st cs.

(** No image has the empty string as its identity. *)
Definition namedImages (st : State) : Prop :=
  forall img, img ∈ imageFiles st -> id img <> EmptyString.

(** *** Sample inputs *)

Definition photo (n : string) : File := mkFile n 1700000000000 "image/png".
Definition browser0 : Browser := mkBrowser (fun i => "0." +:+ showZ (Z.of_nat i)) (fun i => "blob:" +:+ showZ (Z.of_nat i)).
Definition ops0 : list Op :=
  [ AddFiles browser0 (Some [photo "a.png"; photo "b.png"]);
    TagImage "a.png-1700000000000-0.0" top;
    TagImage "a.png-1700000000000-0.0" side;
    TagImage "b.png-1700000000000-0.1" top;
    RemoveImage "a.png-1700000000000-0.0" ].

End Uploader.

(** ** Guided live scan (components/LiveScanner.tsx) *)
Module Scanner.

(** [type Step = 'idle' | ViewKey | 'done' | 'error'] *)
Inductive Step : Type := idle | view (v : ViewKey) | done | error.

#[export] Instance Step_eq_dec : EqDecision Step.
Proof. solve_decision. Defined.

(** A [MediaStream] is known by the handles of its tracks. *)
Definition MediaStream : Type := list nat.

(** The component ([step], [stream], [previews], [filesRef.current]) together
    with what it does to its surroundings: [tracks] says of every camera
    track ever handed out whether it is still live, [emitted] lists the
    arguments of the calls of [onImagesChange], oldest first. *)
Record State : Type := mkState {
  step : Step;
  stream : option MediaStream;
  previews : Slots (option string);
  files : Slots (option File);
  tracks : list bool;
  emitted : list (Slots (option File))
}.

Definition init : State := mkState idle None allNull allNull [] [].

Definition setStep (x : Step) (s : State) : State :=
  mkState x (stream s) (previews s) (files s) (tracks s) (emitted s).
Definition setStream (x : option MediaStream) (s : State) : State :=
  mkState (step s) x (previews s) (files s) (tracks s) (emitted s).
Definition setPreviews (x : Slots (option string)) (s : State) : State :=
  mkState (step s) (stream s) x (files s) (tracks s) (emitted s).
Definition setFiles (x : Slots (option File)) (s : State) : State :=
  mkState (step s) (stream s) (previews s) x (tracks s) (emitted s).
Definition setTracks (x : list bool) (s : State) : State :=
  mkState (step s) (stream s) (previews s) (files s) x (emitted s).
Definition onImagesChange (x : Slots (option File)) (s : State) : State :=
  mkState (step s) (stream s) (previews s) (files s) (tracks s) (emitted s ++ [x]).

(** [track.stop()] *)
Definition stopTrack (ts : list bool) (t : nat) : list bool := <[t := false]> ts.

(** [stopStream()] *)
Definition stopStream (s : State) : State :=
  match stream s with
  | Some ms => setStream None (setTracks (foldl stopTrack (tracks s) ms) s)
  | None => s
  end.

(** [startScan()] from the answer of [getUserMedia] on (the click itself
    only asks for the camera); [granted] is [Some n] when [getUserMedia]
    resolves with a stream of [n] fresh live tracks and [None] when it
    rejects. *)
Definition startScan (granted : option nat) (s : State) : State :=
  match granted with
  | Some n =>
      let mediaStream := seq (length (tracks s)) n in
      setStep (view top)
        (setStream (Some mediaStream) (setTracks (tracks s ++ replicate n true) s))
  | None => setStep error s
  end.

Record Blob : Type := mkBlob { blobType : string }.

(** [blobToFile(theBlob, fileName)], with the value of [new Date().getTime()]. *)
Definition blobToFile (theBlob : Blob) (fileName : string) (now : Z) : File :=
  {| name := fileName; lastModified := now; type := blobType theBlob |}.

(** What the browser hands to one call of [handleCapture]: whether the video
    and canvas refs are set, the size of the video frame, the blob given to
    the [toBlob] callback ([None] for null), the object URL made for it and
    the clock. *)
Record Frame : Type := mkFrame {
  mounted : bool;
  videoWidth : Z;
  videoHeight : Z;
  blob : option Blob;
  objectURL : string;
  now : Z
}.

(** [arr.indexOf(x)] *)
Fixpoint indexOf (x : ViewKey) (arr : list ViewKey) : Z :=
  match arr with
  | [] => -1
  | y :: rest =>
      if decide (y = x) then 0
      else let r := indexOf x rest in if (r <? 0)%Z then -1 else (r + 1)%Z
  end.

Definition nextStepOrder : list ViewKey := [top; side; back].

(** [handleCapture()] when the [toBlob] callback runs before anything else
    happens: the click and its callback in one step ([captureClick] and
    [toBlobCallback] below take them apart, lemma
    [handleCapture_settles_at_once]).  The [None] branch of the array lookup
    is never taken (lemma [next_defined]). *)
Definition handleCapture (f : Frame) (s : State) : State :=
  match step s with
  | idle | done | error => s
  | view currentStep =>
      if negb (mounted f) then s
      else if (videoWidth f =? 0)%Z || (videoHeight f =? 0)%Z then s
      else
        match blob f with
        | None => s
        | Some b =>
            let file := blobToFile b (keyName currentStep +:+ "_capture.jpg") (now f) in
            let s := setPreviews (set currentStep (Some (objectURL f)) (previews s)) s in
            let s := setFiles (set currentStep (Some file) (files s)) s in
            let s := onImagesChange (files s) s in
            let currentIndex := indexOf currentStep nextStepOrder in
            if (currentIndex <? Z.of_nat (length nextStepOrder) - 1)%Z then
              match nextStepOrder !! Z.to_nat (currentIndex + 1) with
              | Some next => setStep (view next) s
              | None => s
              end
            else stopStream (setStep done s)
        end
  end.

(** [handleReset()] *)
Definition handleReset (s : State) : State :=
  let s := stopStream s in
  let s := setStep idle s in
  let s := setPreviews allNull s in
  let s := setFiles allNull s in
  onImagesChange allNull s.

(** The clicks the rendered component can receive, each taken together with
    the continuation it starts: the answer of the camera to Start Scan, the
    blob of a capture. *)
Inductive Event : Type :=
| StartScan (granted : option nat)
| Capture (f : Frame)
| Reset.

(** [['top', 'side', 'back'].includes(step)] *)
Definition isScanning (st : Step) : bool :=
  match st with view _ => true | _ => false end.

(** Which button the JSX renders in which step: Start Scan when idle, Try
    Again on error, Reset Scan and Capture while scanning, Retake Scans when
    done.  (A button disabled while an analysis runs receives no click, which
    only removes events.) *)
Definition offered (st : Step) (e : Event) : bool :=
  match e with
  | StartScan _ => bool_decide (st = idle)
  | Capture _ => isScanning st
  | Reset => bool_decide (st = error) || isScanning st || bool_decide (st = done)
  end.

Definition handler (e : Event) (s : State) : State :=
  match e with
  | StartScan granted => startScan granted s
  | Capture f => handleCapture f s
  | Reset => handleReset s
  end.

(** A click runs its handler when its button is rendered; its continuation
    settles before anything else happens.  ([asyncStep] below lets the
    continuations come later.) *)
Definition dispatch (e : Event) (s : State) : State :=
  if offered (step s) e then handler e s else s.

Definition run (evs : list Event) (s : State) : State :=
  foldl (fun s e => dispatch e s) s evs.






(** A capture takes effect when the refs are set, the frame has a size and
    [toBlob] yields a blob. *)
Definition effective (f : Frame) : bool :=
  mounted f && negb ((videoWidth f =? 0)%Z || (videoHeight f =? 0)%Z) &&
  bool_decide (is_Some (blob f)).

(** The phase after a capture that takes effect in phase [v]. *)
Definition succPhase (v : ViewKey) : Step :=
  match v with top => view side | side => view back | back => done end.





(** The views the idle animation shows in turn ([ScanAnimation]). *)
Definition views : list ViewKey := [top; side; back].

(** The updater given to [setCurrentView] by the animation:
    [views[(views.indexOf(prevView) + 1) % views.length]], [None] for
    undefined. *)
Definition nextView (prevView : ViewKey) : option ViewKey :=
  let nextIndex := Z.rem (indexOf prevView views + 1) (Z.of_nat (length views)) in
  if (nextIndex <? 0)%Z then None else views !! Z.to_nat nextIndex.

(** The cleanup returned by the effect without dependencies: it stops the
    tracks of the [stream] it closed over, if there is one. *)
Definition cleanup (captured : option MediaStream) (s : State) : State :=
  match captured with
  | Some ms => setTracks (foldl stopTrack (tracks s) ms) s
  | None => s
  end.

(** Unmounting the component runs that cleanup.  The effect ran once, after
    the first render, so the [stream] it closed over is the initial one. *)
Definition unmount (s : State) : State := cleanup (stream init) s.

(** The component state [s] in the surroundings of [w]. *)
Definition within (w s : State) : State :=
  mkState (step s) (stream s) (previews s) (files s) (tracks w) (emitted w).

(** Mounting the component anew: its state is the initial one, its
    surroundings are as [s] left them. *)
Definition mount (s : State) : State :=
  mkState idle None allNull allNull (tracks s) (emitted s).

(** The views whose capture lies behind a step. *)
Definition captured (st : Step) (k : ViewKey) : bool :=
  match st with
  | view v => (indexOf k nextStepOrder <? indexOf v nextStepOrder)%Z
  | done => true
  | idle | error => false
  end.

(** The slots that are filled are the slots of the views already captured,
    each with the file named after its view, and with a preview. *)
Definition slotsMatch (s : State) : Prop :=
  forall k,
    if captured (step s) k
    then (exists f, get k (files s) = Some f /\ name f = keyName k +:+ "_capture.jpg") /\
         is_Some (get k (previews s))
    else get k (files s) = None /\ get k (previews s) = None.

(** The parent was last told the files the component holds. *)
Definition parentSynced (s : State) : Prop :=
  match last (emitted s) with
  | Some x => x = files s
  | None => files s = allNull
  end.

(** The tracks of the stream the component holds are live, and it holds a
    stream while it is scanning. *)
Definition cameraLive (s : State) : Prop :=
  (isScanning (step s) = true -> is_Some (stream s)) /\
  (forall ms t, stream s = Some ms -> t ∈ ms -> tracks s !! t = Some true).

(** *** Clicks and the continuations they leave behind *)

(** [stopStream] as the callback of a render, closed over the [stream] of
    that render:
    [if (stream) { stream.getTracks().forEach(track => track.stop()); setStream(null) }] *)
Definition stopStreamOf (captured : option MediaStream) (s : State) : State :=
  match captured with
  | Some ms => setStream None (setTracks (foldl stopTrack (tracks s) ms) s)
  | None => s
  end.

(** What the callback given to [toBlob] closed over: the [step] and the
    [stopStream] (so the [stream]) of the render in which Capture was
    clicked, and the frame drawn on the canvas. *)
Record Shot : Type := mkShot {
  shotStep : ViewKey;
  shotStream : option MediaStream;
  shotFrame : Frame
}.

(** The part of [handleCapture] that runs in the click: the guards, then the
    drawing and the call of [toBlob]; [None] when a guard returns. *)
Definition captureClick (f : Frame) (s : State) : option Shot :=
  match step s with
  | idle | done | error => None
  | view currentStep =>
      if negb (mounted f) then None
      else if (videoWidth f =? 0)%Z || (videoHeight f =? 0)%Z then None
      else Some (mkShot currentStep (stream s) f)
  end.

(** The callback given to [canvas.toBlob], run on the state of the moment:
    the state setters and [filesRef] are those of the component, [step] and
    [stopStream] those of the click. *)
Definition toBlobCallback (shot : Shot) (s : State) : State :=
  match blob (shotFrame shot) with
  | None => s
  | Some b =>
      let currentStep := shotStep shot in
      let file := blobToFile b (keyName currentStep +:+ "_capture.jpg") (now (shotFrame shot)) in
      let s := setPreviews (set currentStep (Some (objectURL (shotFrame shot))) (previews s)) s in
      let s := setFiles (set currentStep (Some file) (files s)) s in
      let s := onImagesChange (files s) s in
      let currentIndex := indexOf currentStep nextStepOrder in
      if (currentIndex <? Z.of_nat (length nextStepOrder) - 1)%Z then
        match nextStepOrder !! Z.to_nat (currentIndex + 1) with
        | Some next => setStep (view next) s
        | None => s
        end
      else stopStreamOf (shotStream shot) (setStep done s)
  end.

(** The component together with what is still to come: the calls of
    [getUserMedia] that have not been answered and the [toBlob] callbacks
    that have not run. *)
Record Async : Type := mkAsync {
  rendered : State;
  cameraRequests : nat;
  shots : list Shot
}.

(** Nothing is still to come. *)
Definition settled (s : State) : Async := mkAsync s 0 [].

(** The clicks, and the continuations as events of their own: the camera
    answers one of the open requests, the blob of the n-th open shot is
    delivered. *)
Inductive AsyncEvent : Type :=
| ClickStartScan
| CameraAnswers (granted : option nat)
| ClickCapture (f : Frame)
| BlobDelivered (n : nat)
| ClickReset.

(** A click is taken when its button is rendered; a continuation runs
    whatever the step is by then. *)
Definition asyncStep (e : AsyncEvent) (a : Async) : Async :=
  let s := rendered a in
  match e with
  | ClickStartScan =>
      if bool_decide (step s = idle)
      then mkAsync s (S (cameraRequests a)) (shots a)
      else a
  | CameraAnswers granted =>
      match cameraRequests a with
      | S n => mkAsync (startScan granted s) n (shots a)
      | O => a
      end
  | ClickCapture f =>
      if isScanning (step s)
      then match captureClick f s with
           | Some shot => mkAsync s (cameraRequests a) (shots a ++ [shot])
           | None => a
           end
      else a
  | BlobDelivered n =>
      match shots a !! n with
      | Some shot => mkAsync (toBlobCallback shot s) (cameraRequests a) (delete n (shots a))
      | None => a
      end
  | ClickReset =>
      if offered (step s) Reset
      then mkAsync (handleReset s) (cameraRequests a) (shots a)
      else a
  end.

Definition asyncRun (evs : list AsyncEvent) (a : Async) : Async :=
  foldl (fun a e => asyncStep e a) a evs.



(** A click followed at once by its continuation. *)
Definition settledAtOnce (e : Event) : list AsyncEvent :=
  match e with
  | StartScan granted => [ClickStartScan; CameraAnswers granted]
  | Capture f => [ClickCapture f; BlobDelivered 0]
  | Reset => [ClickReset]
  end.

(** The runs in which every continuation comes before the next click. *)
Definition sequential (evs : list Event) : list AsyncEvent :=
  flat_map settledAtOnce evs.



(** *** Sample inputs *)

(** A frame of a running video, and a frame of a video that is not ready. *)
Definition frame1 : Frame := mkFrame true 1920 1080 (Some (mkBlob "image/jpeg")) "blob:1" 1700000000000.
Definition frame0 : Frame := mkFrame true 0 0 (Some (mkBlob "image/jpeg")) "blob:0" 1700000000000.
Definition scanning : State := dispatch (StartScan (Some 2)) init.
Definition fullScan : list Event :=
  [StartScan (Some 2); Capture frame0; Capture frame1; Capture frame1;
   StartScan (Some 1); Capture frame1; Capture frame1].

End Scanner.

(** ** Analysis results (types.ts) *)

(** [PotentialIssue].  A value of a union of string literals is a string at run
  time: the result is the unchecked value of [JSON.parse]. *)
Record PotentialIssue : Type := mkPotentialIssue {
  issue : string;
  severity : string;
  description : string
}.

(** [AnalysisResult]; the confidence score is an integer-valued number. *)
Record AnalysisResult : Type := mkAnalysisResult {
  archType : string;
  potentialIssues : list PotentialIssue;
  summary : string;
  clinicalRecommendations : list string;
  footwearSuggestions : list string;
  confidenceScore : Z
}.

(** ** Analysis request (services/geminiService.ts) *)
Module Gemini.

(** [FootImages = Partial<{ top: File; side: File; back: File }>]: the own
    properties of the object in the order in which they were put in, each
    key at most once; a property may hold undefined ([None]). *)
Definition FootImages : Type := list (ViewKey * option File).

(** [Object.keys(imageFiles)] *)
Definition objectKeys (imageFiles : FootImages) : list ViewKey := map fst imageFiles.

(** [imageFiles[key]], undefined ([None]) for a key the object does not have. *)
Definition field (key : ViewKey) (imageFiles : FootImages) : option File :=
  match List.find (fun entry => bool_decide (fst entry = key)) imageFiles with
  | Some entry => snd entry
  | None => None
  end.

Inductive Part : Type :=
| TextPart (text : string)
| InlineData (data : option string) (mimeType : string).

(** The argument of [ai.models.generateContent] (the constant response
    schema left out). *)
Record Request : Type := mkRequest {
  model : string;
  parts : list Part;
  responseMimeType : string
}.

(** A thrown value, known by its class and message. *)
Inductive Thrown : Type :=
| Error (message : string)
| TypeError (message : string)
| SyntaxError (message : string).

(** What the function does to its surroundings: the [console.error] lines
    and the requests sent to the remote model, oldest first. *)
Record World : Type := mkWorld {
  console : list (string * Thrown);
  requests : list Request
}.

Definition quiet : World := mkWorld [] [].

(** Computations that may throw and that act on the world. *)
Definition M (A : Type) : Type := World -> (Thrown + A) * World.

Definition ret {A} (x : A) : M A := fun w => (inr x, w).
Definition throw {A} (e : Thrown) : M A := fun w => (inl e, w).
Definition bind {A B} (m : M A) (k : A -> M B) : M B :=
  fun w => match m w with
           | (inl e, w') => (inl e, w')
           | (inr x, w') => k x w'
           end.
(** [try { body } catch (error) { handler }] *)
Definition tryCatch {A} (body : M A) (handler : Thrown -> M A) : M A :=
  fun w => match body w with
           | (inl e, w') => handler e w'
           | (inr x, w') => (inr x, w')
           end.
(** [console.error(label, error)] *)
Definition consoleError (label : string) (e : Thrown) : M unit :=
  fun w => (inr tt, mkWorld (console w ++ [(label, e)]) (requests w)).

Notation "x <- m ;; k" := (bind m (fun x => k))
  (at level 62, m at next level, right associativity).
Notation "m ;;; k" := (bind m (fun _ => k))
  (at level 62, right associativity).

(** [s.split(sep)] for a one-character separator. *)
Fixpoint split (sep : ascii) (s : string) : list string :=
  match s with
  | EmptyString => [EmptyString]
  | String c rest =>
      if Ascii.eqb c sep then EmptyString :: split sep rest
      else match split sep rest with
           | h :: t => String c h :: t
           | [] => [String c EmptyString]
           end
  end.

(** The text of [initialPrompt] before and after the list of views. *)
Definition promptHead : string :=
  "You are a world-class AI podiatry assistant called SmartStep. Your task is to perform a detailed analysis of a human foot from a set of images. These images were taken while the user was standing to capture the foot's shape under natural weight-bearing conditions.

You have been provided with the following views: ".
Definition promptTail : string :=
  ". Your analysis will be limited by any missing views. Perform the most thorough analysis possible with the available images and clearly state any limitations in your summary. If a specific view required for a task (e.g., side view for arch type) is missing, state the result as 'Unknown' and explain why.

- Use the **Side View** (if available) to primarily determine the foot arch type.
- Use the **Top View** (if available) to identify issues like bunions, hammertoes, or toe alignment.
- Use the **Back View** (if available) to assess heel alignment (e.g., pronation or supination).

Provide a comprehensive analysis covering the following points:
1.  **Foot Arch Type**: Determine if the arch is normal, flat (pes planus), or high (pes cavus).
2.  **Potential Deformities/Issues**: Identify any visible signs of common foot conditions. For each issue, provide:
    a. The name of the issue.
    b. An estimated severity level (Mild, Moderate, Severe, or Unknown).
    c. A brief description of the finding and which view it was most apparent in.
3.  **Overall Summary**: A concise summary of your findings, written in clear, easy-to-understand language.
4.  **Clinical Recommendations**: A list of 2-3 potential clinical recommendations for a healthcare professional.
5.  **Footwear Suggestions**: A list of 2-3 specific types of footwear or shoe features that would be beneficial.
6.  **Confidence Score**: An overall confidence score (0-100) for this analysis. Base this score on the quality of the images AND the number of views provided (more views should generally lead to higher confidence).

IMPORTANT: Your response must be in a clean JSON format. Do not include any markdown formatting or explanations outside of the JSON structure.".

Definition noImagesMessage : string := "No images were provided for analysis.".
Definition genericMessage : string :=
  "Failed to analyze the image. The AI model may be unavailable or the image could not be processed.".

Section Service.

(** The parsed JSON value, which the code casts to [AnalysisResult]. *)
Variable J : Type.
(** [JSON.parse]; [None] when it throws. *)
Variable JSON_parse : string -> option J.
(** [String.prototype.trim] *)
Variable trim : string -> string.
(** The data URL a [FileReader] produces for a file it can read.  (For a
    file it cannot read [reader.result] is null, the [onloadend] handler
    throws outside the promise and the call never settles; the readers here
    read every file.) *)
Variable readAsDataURL : File -> string.
(** The remote model: it rejects, or resolves with a response whose
    [text] is a string or undefined. *)
Variable remote : Request -> Thrown + option string.

(** [fileToGenerativePart(file)] *)
Definition fileToGenerativePart (file : File) : M Part :=
  ret (InlineData (split "," (readAsDataURL file) !! 1%nat) (type file)).

(** [ai.models.generateContent(request)] *)
Definition generateContent (r : Request) : M (option string) :=
  fun w =>
    let w' := mkWorld (console w) (requests w ++ [r]) in
    match remote r with
    | inl e => (inl e, w')
    | inr response => (inr response, w')
    end.

(** [if (imageFiles.k) imageParts.push({ text: label }, await fileToGenerativePart(imageFiles.k))] *)
Definition pushView (imageFiles : FootImages) (k : ViewKey) (label : string)
    (imageParts : list Part) : M (list Part) :=
  match field k imageFiles with
  | Some file =>
      part <- fileToGenerativePart file ;;
      ret (imageParts ++ [TextPart label; part])%list
  | None => ret imageParts
  end.

(** [analyzeFootImage(imageFiles)] *)
Definition analyzeFootImage (imageFiles : FootImages) : M J :=
  tryCatch
    (let providedViews :=
       List.filter (fun key => bool_decide (is_Some (field key imageFiles)))
                   (objectKeys imageFiles) in
     if (length providedViews =? 0)%nat
     then throw (Error noImagesMessage)
     else
       let initialPrompt :=
         promptHead +:+ String.concat ", " (map keyName providedViews) +:+ promptTail in
       imageParts <- pushView imageFiles top "Top View of the foot:" [] ;;
       imageParts <- pushView imageFiles side "Side View (Arch) of the foot:" imageParts ;;
       imageParts <- pushView imageFiles back "Back View (Heel) of the foot:" imageParts ;;
       response <- generateContent
                     {| model := "gemini-2.5-flash";
                        parts := TextPart initialPrompt :: imageParts;
                        responseMimeType := "application/json" |} ;;
       match response with
       | None => throw (TypeError "Cannot read properties of undefined (reading 'trim')")
       | Some text =>
           let jsonString := trim text in
           match JSON_parse jsonString with
           | Some result => ret result
           | None => throw (SyntaxError "Unexpected token in JSON")
           end
       end)
    (fun error =>
       consoleError "Error analyzing image with Gemini:" error ;;;
       throw (Error genericMessage)).

End Service.

(** No slot of the image set is populated. *)
Definition emptySet (imageFiles : FootImages) : Prop :=
  forall k, field k imageFiles = None.

(** *** The request an image set leads to *)

(** No character of [s] is [sep]. *)
Fixpoint lacks (sep : ascii) (s : string) : bool :=
  match s with
  | EmptyString => true
  | String c rest => negb (Ascii.eqb c sep) && lacks sep rest
  end.

(** The views of an image set that hold a file, in the order of the keys of
    the object. *)
Definition providedViews (imageFiles : FootImages) : list ViewKey :=
  List.filter (fun key => bool_decide (is_Some (field key imageFiles)))
              (objectKeys imageFiles).

(** The label that goes before the image of a view. *)
Definition viewLabel (k : ViewKey) : string :=
  match k with
  | top => "Top View of the foot:"
  | side => "Side View (Arch) of the foot:"
  | back => "Back View (Heel) of the foot:"
  end.

(** The request for an image set: the prompt that lists the provided views
    in the order of the keys of the object, then, in the order top, side,
    back, a label and the encoded image for each provided view. *)
Definition requestFor (readAsDataURL : File -> string) (imageFiles : FootImages) : Request :=
  {| model := "gemini-2.5-flash";
     parts :=
       TextPart (promptHead +:+ String.concat ", " (map keyName (providedViews imageFiles))
                 +:+ promptTail)
       :: flat_map (fun k => match field k imageFiles with
                             | Some file =>
                                 [TextPart (viewLabel k);
                                  InlineData (split "," (readAsDataURL file) !! 1%nat) (type file)]
                             | None => []
                             end) keys;
     responseMimeType := "application/json" |}.

(** The label of the console line of a failure. *)
Definition failureLabel : string := "Error analyzing image with Gemini:".

Section Outcome.

Variable J : Type.
Variable JSON_parse : string -> option J.
Variable trim : string -> string.
Variable readAsDataURL : File -> string.
Variable remote : Request -> Thrown + option string.

(** What a call does, by the answer of the remote model to the one request. *)
Definition outcome (imageFiles : FootImages) (w : World) : (Thrown + J) * World :=
  let sent := requests w ++ [requestFor readAsDataURL imageFiles] in
  let failed cause :=
    (inl (Error genericMessage), mkWorld (console w ++ [(failureLabel, cause)]) sent) in
  match remote (requestFor readAsDataURL imageFiles) with
  | inl e => failed e
  | inr None => failed (TypeError "Cannot read properties of undefined (reading 'trim')")
  | inr (Some text) =>
      match JSON_parse (trim text) with
      | Some result => (inr result, mkWorld (console w) sent)
      | None => failed (SyntaxError "Unexpected token in JSON")
      end
  end.

End Outcome.

(** A remote model that is always ready with an empty object. *)
Definition remote0 (r : Request) : Thrown + option string := inr (Some "{}").

(** The object without a property, and objects built in two orders. *)
Definition noImages : FootImages := [].
Definition jpeg (n : string) : File := mkFile n 1700000000000 "image/jpeg".
Definition sideOnly : FootImages := [(side, Some (jpeg "side_capture.jpg"))].
Definition topOnly : FootImages := [(top, Some (jpeg "top_capture.jpg"))].
Definition backThenTop : FootImages :=
  [(back, Some (jpeg "back_capture.jpg")); (top, Some (jpeg "top_capture.jpg"))].
Definition dataURL1 (f : File) : string := "data:image/jpeg;base64,AAAA".

(** A remote model that is down. *)
Definition remoteDown (r : Request) : Thrown + option string := inl (Error "503").

End Gemini.

(** ** Consultation summary (components/TelemedicineModal.tsx) *)
Module Telemedicine.

Definition nl : string := String (ascii_of_nat 10) EmptyString.

(** [s || 'N/A'] for a string or undefined [s]: the empty string is falsy. *)
Definition orNA (s : option string) : string :=
  match s with
  | Some s => if String.eqb s EmptyString then "N/A" else s
  | None => "N/A"
  end.

(** [`${n || 'N/A'}`] for a number or undefined [n]: zero is falsy. *)
Definition numberOrNA (n : option Z) : string :=
  match n with
  | Some n => if (n =? 0)%Z then "N/A" else Uploader.showZ n
  | None => "N/A"
  end.

(** [formatPotentialIssues(issues)] *)
Definition formatPotentialIssues (issues : option (list PotentialIssue)) : string :=
  match issues with
  | None => "None detected"
  | Some issues =>
      if (length issues =? 0)%nat then "None detected"
      else String.concat nl
             (map (fun i => "• " +:+ issue i +:+ " (" +:+ severity i +:+ "): " +:+ description i)
                  issues)
  end.

(** [list?.map(s => `• ${s}`).join('\n')] *)
Definition bullets (l : option (list string)) : option string :=
  match l with
  | Some l => Some (String.concat nl (map (fun s => "• " +:+ s) l))
  | None => None
  end.

(** The template literal, with a hole for each interpolation. *)
Definition template (arch issues summ footwear clinical confidence : string) : string :=
  "--- AI Analysis Summary ---" +:+ nl +:+
  nl +:+
  "Arch Type:" +:+ nl +:+
  arch +:+ nl +:+
  nl +:+
  "Potential Issues:" +:+ nl +:+
  issues +:+ nl +:+
  nl +:+
  "AI Summary:" +:+ nl +:+
  summ +:+ nl +:+
  nl +:+
  "Footwear Suggestions:" +:+ nl +:+
  footwear +:+ nl +:+
  nl +:+
  "Clinical Recommendations:" +:+ nl +:+
  clinical +:+ nl +:+
  nl +:+
  "Confidence Score: " +:+ confidence +:+ "%" +:+ nl +:+
  "  ".

(** [analysisSummaryForEmail], for the [analysisResult] prop. *)
Definition analysisSummaryForEmail (analysisResult : option AnalysisResult) : string :=
  template
    (orNA (archType <$> analysisResult))
    (formatPotentialIssues (potentialIssues <$> analysisResult))
    (orNA (summary <$> analysisResult))
    (orNA (bullets (footwearSuggestions <$> analysisResult)))
    (orNA (bullets (clinicalRecommendations <$> analysisResult)))
    (numberOrNA (confidenceScore <$> analysisResult)).

(** *** The layout the message is said to have *)

(** One section: its heading on a line, its body, a blank line. *)
Definition section (heading body : string) : string :=
  heading +:+ nl +:+ body +:+ nl +:+ nl.

(** A bulleted line for one issue: "<issue> (<severity>): <description>". *)
Definition issueLine (i : PotentialIssue) : string :=
  "• " +:+ (issue i +:+ " (" +:+ severity i +:+ "): " +:+ description i).

(** The bulleted issues, or the words that stand in for an empty list. *)
Definition issuesBody (issues : list PotentialIssue) : string :=
  match issues with
  | [] => "None detected"
  | _ :: _ => String.concat nl (map issueLine issues)
  end.

(** The sections in the order of the layout, then the confidence line. *)
Definition layout (r : AnalysisResult) : string :=
  "--- AI Analysis Summary ---" +:+ nl +:+ nl +:+
  String.concat EmptyString
    [ section "Arch Type:" (orNA (Some (archType r)));
      section "Potential Issues:" (issuesBody (potentialIssues r));
      section "AI Summary:" (orNA (Some (summary r)));
      section "Footwear Suggestions:" (orNA (bullets (Some (footwearSuggestions r))));
      section "Clinical Recommendations:" (orNA (bullets (Some (clinicalRecommendations r)))) ] +:+
  "Confidence Score: " +:+ numberOrNA (Some (confidenceScore r)) +:+ "%" +:+ nl +:+ "  ".

(** *** Sample inputs *)

Definition bunion : PotentialIssue :=
  mkPotentialIssue "Bunion" "Mild" "Slight deviation of the big toe, seen in the Top View.".
Definition result1 : AnalysisResult :=
  mkAnalysisResult "Flat" [bunion] "The arch is low." ["Orthotic assessment"]
    ["Stability shoes"; "Arch support insoles"] 87.
Definition result0 : AnalysisResult :=
  mkAnalysisResult EmptyString [] EmptyString ["Orthotic assessment"] ["Stability shoes"] 0.

End Telemedicine.

(** ** Result panel (components/AnalysisDashboard.tsx) *)
Module Dashboard.

Section Dashboard.

(** The parsed JSON value shown as the result. *)
Variable J : Type.
(** Whether a parsed value is truthy. *)
Variable truthy : J -> bool.

(** The four states the panel can render. *)
Inductive View : Type :=
| LoadingState
| ErrorState (error : string)
| ResultDisplay (result : J)
| InitialState.

(** [isLoading ? <LoadingState /> : error ? <ErrorState /> : result ?
    <ResultDisplay /> : <InitialState />]; the empty string is a falsy
    error. *)
Definition AnalysisDashboard (result : option J) (isLoading : bool) (error : option string)
    : View :=
  let withoutError :=
    match result with
    | Some r => if truthy r then ResultDisplay r else InitialState
    | None => InitialState
    end in
  if isLoading then LoadingState
  else match error with
       | Some e => if String.eqb e EmptyString then withoutError else ErrorState e
       | None => withoutError
       end.

End Dashboard.

End Dashboard.

(** ** The application (App.tsx) *)
Module App.
Import (hints) Scanner.

(** [type InputMode = 'upload' | 'scan'] *)
Inductive InputMode : Type := upload | scan.

#[export] Instance InputMode_eq_dec : EqDecision InputMode.
Proof. solve_decision. Defined.

(** [Object.fromEntries(Object.entries(imageFiles).filter(([_, value]) =>
    value !== null))]: the entries of the state object, which has the keys
    top, side, back in this order, without those that hold null. *)
Definition imagesToAnalyze (files : Slots (option File)) : Gemini.FootImages :=
  List.filter (fun entry => bool_decide (is_Some (snd entry)))
              [(top, at_top files); (side, at_side files); (back, at_back files)].

(** [e.message] *)
Definition message (e : Gemini.Thrown) : string :=
  match e with
  | Gemini.Error m | Gemini.TypeError m | Gemini.SyntaxError m => m
  end.

Section App.

Variable J : Type.
Variable JSON_parse : string -> option J.
Variable trim : string -> string.
Variable readAsDataURL : File -> string.
Variable remote : Gemini.Request -> Gemini.Thrown + option string.

(** The [useState] cells of the application; the state of the mounted child
    ([uploader] in upload mode, [scanner] in scan mode, with the calls of
    [getUserMedia] and the [toBlob] callbacks it still waits for; the
    scanner record also keeps the camera tracks while no scanner is
    mounted); the scanners that were unmounted, each with what it still
    waits for; the image set of the call of [analyzeFootImage] that has not
    settled yet; the console and the requests sent. *)
Record State : Type := mkState {
  mode : InputMode;
  imageFiles : Slots (option File);
  analysisResult : option J;
  isLoading : bool;
  error : option string;
  isTelemedicineModalOpen : bool;
  uploader : Uploader.State;
  scanner : Scanner.Async;
  retired : list Scanner.Async;
  pending : option Gemini.FootImages;
  world : Gemini.World
}.

Definition init : State :=
  mkState upload allNull None false None false Uploader.init (Scanner.settled Scanner.init) []
          None Gemini.quiet.

(** [handleImagesChange(files)] *)
Definition handleImagesChange (files : Slots (option File)) (st : State) : State :=
  mkState (mode st) files None (isLoading st) None (isTelemedicineModalOpen st)
          (uploader st) (scanner st) (retired st) (pending st) (world st).

Definition setUploader (u : Uploader.State) (st : State) : State :=
  mkState (mode st) (imageFiles st) (analysisResult st) (isLoading st) (error st)
          (isTelemedicineModalOpen st) u (scanner st) (retired st) (pending st) (world st).

Definition setScanner (a : Scanner.Async) (st : State) : State :=
  mkState (mode st) (imageFiles st) (analysisResult st) (isLoading st) (error st)
          (isTelemedicineModalOpen st) (uploader st) a (retired st) (pending st) (world st).

Definition setRetired (l : list Scanner.Async) (st : State) : State :=
  mkState (mode st) (imageFiles st) (analysisResult st) (isLoading st) (error st)
          (isTelemedicineModalOpen st) (uploader st) (scanner st) l (pending st) (world st).

Definition setModeCell (m : InputMode) (st : State) : State :=
  mkState m (imageFiles st) (analysisResult st) (isLoading st) (error st)
          (isTelemedicineModalOpen st) (uploader st) (scanner st) (retired st) (pending st)
          (world st).

Definition setModal (b : bool) (st : State) : State :=
  mkState (mode st) (imageFiles st) (analysisResult st) (isLoading st) (error st)
          b (uploader st) (scanner st) (retired st) (pending st) (world st).

(** An operation of the mounted uploader.  Every operation but the one with
    a null file list sets a state cell of the uploader, after which its
    effect hands the projection to [handleImagesChange]. *)
Definition uploaderOp (op : Uploader.Op) (st : State) : State :=
  let u := Uploader.apply op (uploader st) in
  let st := setUploader u st in
  match op with
  | Uploader.AddFiles _ None => st
  | _ => handleImagesChange (Uploader.taggedFiles u) st
  end.

(** The image sets handed to [onImagesChange] between [before] and [after]
    go through [handleImagesChange], oldest first. *)
Definition handOver (before after : Scanner.State) (st : State) : State :=
  foldl (fun st files => handleImagesChange files st) st
        (drop (length (Scanner.emitted before)) (Scanner.emitted after)).

(** A click in the mounted scanner, or one of the continuations it waits
    for. *)
Definition scannerEvent (e : Scanner.AsyncEvent) (st : State) : State :=
  let a := Scanner.asyncStep e (scanner st) in
  handOver (Scanner.rendered (scanner st)) (Scanner.rendered a) (setScanner a st).

(** The continuations: they come from the browser, not from a button. *)
Definition isContinuation (e : Scanner.AsyncEvent) : bool :=
  match e with
  | Scanner.CameraAnswers _ | Scanner.BlobDelivered _ => true
  | _ => false
  end.

(** A continuation of the [i]-th unmounted scanner: it runs on the state
    that scanner was left with (its [filesRef] and its closures; what it
    gives to the state setters is never rendered), on the camera tracks of
    the moment, and with the [onImagesChange] of the application. *)
Definition retiredEvent (i : nat) (e : Scanner.AsyncEvent) (st : State) : State :=
  match retired st !! i with
  | Some r =>
      let now := Scanner.rendered (scanner st) in
      let r0 := Scanner.mkAsync (Scanner.within now (Scanner.rendered r))
                                (Scanner.cameraRequests r) (Scanner.shots r) in
      let r' := Scanner.asyncStep e r0 in
      let a := Scanner.mkAsync (Scanner.within (Scanner.rendered r') now)
                               (Scanner.cameraRequests (scanner st))
                               (Scanner.shots (scanner st)) in
      handOver now (Scanner.rendered r')
               (setRetired (<[i := r']> (retired st)) (setScanner a st))
  | None => st
  end.

(** [setMode(m)]: a change of mode unmounts one child and mounts the other;
    the uploader runs its effect when it mounts, the scanner hands over
    nothing when it mounts.  The unmounted scanner keeps what it waits
    for. *)
Definition setMode (m : InputMode) (st : State) : State :=
  match mode st, m with
  | upload, scan =>
      setScanner (Scanner.settled (Scanner.mount (Scanner.rendered (scanner st))))
                 (setModeCell scan st)
  | scan, upload =>
      let left := Scanner.unmount (Scanner.rendered (scanner st)) in
      handleImagesChange (Uploader.taggedFiles Uploader.init)
        (setUploader Uploader.init
           (setRetired (retired st ++ [Scanner.mkAsync left (Scanner.cameraRequests (scanner st))
                                                       (Scanner.shots (scanner st))])
              (setScanner (Scanner.settled (Scanner.mount left)) (setModeCell upload st))))
  | _, _ => st
  end.

(** [Object.values(imageFiles).some(f => f !== null)] *)
Definition atLeastOneImageProvided (st : State) : bool :=
  existsb (fun k => bool_decide (is_Some (get k (imageFiles st)))) keys.

(** [handleAnalyzeClick] up to the call of [analyzeFootImage]. *)
Definition analyzeStart (st : State) : State :=
  let imagesToAnalyze := imagesToAnalyze (imageFiles st) in
  if (length (Gemini.objectKeys imagesToAnalyze) =? 0)%nat
  then st
  else mkState (mode st) (imageFiles st) None true None (isTelemedicineModalOpen st)
               (uploader st) (scanner st) (retired st) (Some imagesToAnalyze) (world st).

(** [handleAnalyzeClick] from the moment the call settles; every thrown
    value of the model is an [Error]. *)
Definition analyzeSettle (st : State) : State :=
  match pending st with
  | None => st
  | Some imagesToAnalyze =>
      match Gemini.analyzeFootImage J JSON_parse trim readAsDataURL remote
              imagesToAnalyze (world st) with
      | (inr result, w) =>
          mkState (mode st) (imageFiles st) (Some result) false (error st)
                  (isTelemedicineModalOpen st) (uploader st) (scanner st) (retired st) None w
      | (inl e, w) =>
          mkState (mode st) (imageFiles st) (analysisResult st) false (Some (message e))
                  (isTelemedicineModalOpen st) (uploader st) (scanner st) (retired st) None w
      end
  end.

(** What can happen to the application. *)
Inductive Event : Type :=
| SetMode (m : InputMode)
| UploaderOp (op : Uploader.Op)
| ScannerEvent (e : Scanner.AsyncEvent)
| RetiredScanner (i : nat) (e : Scanner.AsyncEvent)
| AnalyzeClick
| AnalysisSettles
| OpenTelemedicine
| CloseTelemedicine.

(** The buttons of the scanner other than Try Again are disabled while an
    analysis runs ([isAnalyzing = isLoading]); a continuation needs no
    button. *)
Definition scannerTakes (st : State) (e : Scanner.AsyncEvent) : bool :=
  match e with
  | Scanner.ClickStartScan | Scanner.ClickCapture _ => negb (isLoading st)
  | Scanner.ClickReset =>
      negb (isLoading st) ||
      bool_decide (Scanner.step (Scanner.rendered (scanner st)) = Scanner.error)
  | Scanner.CameraAnswers _ | Scanner.BlobDelivered _ => true
  end.

(** The children get [isAnalyzing = isLoading]: the uploader takes nothing
    while an analysis runs, the scanner only the Try Again button; the
    Analyze button is disabled without an image or while an analysis runs.
    An unmounted scanner takes no click. *)
Definition step (ev : Event) (st : State) : State :=
  match ev with
  | SetMode m => setMode m st
  | UploaderOp op =>
      if bool_decide (mode st = upload) && negb (isLoading st) then uploaderOp op st else st
  | ScannerEvent e =>
      if bool_decide (mode st = scan) && scannerTakes st e then scannerEvent e st else st
  | RetiredScanner i e =>
      if isContinuation e then retiredEvent i e st else st
  | AnalyzeClick =>
      if atLeastOneImageProvided st && negb (isLoading st) then analyzeStart st else st
  | AnalysisSettles => analyzeSettle st
  | OpenTelemedicine => setModal true st
  | CloseTelemedicine => setModal false st
  end.

Definition run (evs : list Event) (st : State) : State :=
  foldl (fun st ev => step ev st) st evs.

(** A blob delivered to an unmounted scanner. *)
Definition isLateBlob (ev : Event) : bool :=
  match ev with
  | RetiredScanner _ (Scanner.BlobDelivered _) => true
  | _ => false
  end.

(** The image set of the application is the one the mounted child shows;
    right after the switch to the scanner it may still be the one the
    uploader left. *)
Definition imagesFollowChild (st : State) : Prop :=
  match mode st with
  | upload => imageFiles st = Uploader.taggedFiles (uploader st)
  | scan =>
      Scanner.files (Scanner.rendered (scanner st)) = allNull \/
      imageFiles st = Scanner.files (Scanner.rendered (scanner st))
  end.

(** An analysis runs exactly while a call is pending, and a pending call has
    an image. *)
Definition pendingSound (st : State) : Prop :=
  match pending st with
  | Some images => isLoading st = true /\ ~ Gemini.emptySet images
  | None => isLoading st = false
  end.

End App.

(** *** Sample inputs *)

(** One image is uploaded and tagged as the top view. *)
Definition oneTagged : list Event :=
  [ UploaderOp (Uploader.AddFiles Uploader.browser0 (Some [Uploader.photo "a.png"]));
    UploaderOp (Uploader.TagImage "a.png-1700000000000-0.0" top) ].

(** ... and then the mode is switched to the live scan. *)
Definition thenScan : list Event := oneTagged ++ [SetMode scan].

(** A capture is clicked in the live scan, the mode is switched to upload,
    and only then the blob is delivered. *)
Definition lateBlob : list Event :=
  [ SetMode scan;
    ScannerEvent Scanner.ClickStartScan; ScannerEvent (Scanner.CameraAnswers (Some 1));
    ScannerEvent (Scanner.ClickCapture Scanner.frame1);
    SetMode upload;
    RetiredScanner 0 (Scanner.BlobDelivered 0) ].

Definition dataURL0 (f : File) : string := "data:image/png;base64,AAAA".

Definition nonEmptyString (s : string) : bool := negb (String.eqb s EmptyString).

End App.

(** * Properties *)

(** ** Three-slot records *)

Lemma get_set_eq {A} (k : ViewKey) (x : A) (o : Slots A) : get k (set k x o) = x.
Proof. by destruct k. Qed.

Lemma get_set_ne {A} (k k' : ViewKey) (x : A) (o : Slots A) :
k <> k' -> get k' (set k x o) = get k' o.
Proof. by destruct k, k'. Qed.

Lemma get_allNull {A} (k : ViewKey) : get k (@allNull A) = None.
Proof. by destruct k. Qed.

(** ** Manual capture and tagging *)
Module UploaderFacts.
Import Uploader.

Lemma holds_true t k i : holds t k i = true <-> get k t = Some i.
Proof.
  unfold holds. destruct (get k t) as [j|]; [|split; discriminate].
  rewrite String.eqb_eq. split; congruence.
Qed.

Lemma holds_false t k i : holds t k i = false <-> get k t <> Some i.
Proof.
  rewrite <- holds_true. destruct (holds t k i); split; congruence.
Qed.

(** The clearing loop empties the slots that hold the identity and leaves
    the others as they are. *)
Lemma get_clearId i t k :
  get k (clearId i t) = if holds t k i then None else get k t.
Proof.
  destruct t as [a b c]. unfold clearId, holds. simpl.
  destruct a as [a|], b as [b|], c as [c|], k; simpl;
    repeat (case_match; simpl in *; try congruence); done.
Qed.

Lemma clearId_gone i t k : get k (clearId i t) <> Some i.
Proof.
  rewrite get_clearId. destruct (holds t k i) eqn:E; [discriminate|].
  by apply holds_false.
Qed.

Lemma clearId_keeps i t k j : get k (clearId i t) = Some j -> get k t = Some j.
Proof. rewrite get_clearId. by destruct (holds t k i). Qed.

Lemma clearId_distinct i t : distinctSlots t -> distinctSlots (clearId i t).
Proof.
  intros D k1 k2 j H1 H2. apply (D k1 k2 j); by eapply clearId_keeps.
Qed.

Lemma tagUpdate_distinct i k t : distinctSlots t -> distinctSlots (tagUpdate i k t).
Proof.
  intros D. unfold tagUpdate. destruct (holds t k i) eqn:E.
  - intros k1 k2 j H1 H2.
    destruct (decide (k = k1)) as [->|N1]; [by rewrite get_set_eq in H1|].
    destruct (decide (k = k2)) as [->|N2]; [by rewrite get_set_eq in H2|].
    rewrite get_set_ne in H1, H2 by done. by apply (D k1 k2 j).
  - intros k1 k2 j H1 H2.
    destruct (decide (k = k1)) as [->|N1], (decide (k1 = k2)) as [->|N2];
      try done.
    + rewrite get_set_eq in H1. rewrite get_set_ne in H2 by done.
      injection H1 as <-. by apply clearId_gone in H2.
    + destruct (decide (k = k2)) as [->|N3].
      * rewrite get_set_eq in H2. rewrite get_set_ne in H1 by done.
        injection H2 as <-. by apply clearId_gone in H1.
      * rewrite get_set_ne in H1, H2 by done.
        by apply (clearId_distinct i t D k1 k2 j).
Qed.

Lemma apply_distinct op st :
  distinctSlots (tags st) -> distinctSlots (tags (apply op st)).
Proof.
  destruct op as [env [fs|]|i|i k]; simpl; try done.
  - apply clearId_distinct.
  - apply tagUpdate_distinct.
Qed.

Lemma init_distinct : distinctSlots (tags init).
Proof. intros k1 k2 i H. cbn [tags init] in H. by rewrite get_allNull in H. Qed.

(** Whatever the operations, no two slots ever share an identity. *)
Lemma run_distinct ops st :
  distinctSlots (tags st) -> distinctSlots (tags (run ops st)).
Proof.
  revert st. induction ops as [|op ops IH]; intros st D; [done|].
  simpl. apply IH. by apply apply_distinct.
Qed.

Lemma present_handleFiles i env files st :
  present i st = true -> present i (handleFiles env files st) = true.
Proof.
  destruct files as [fs|]; [|done].
  unfold present. simpl. rewrite existsb_app. by intros ->.
Qed.

Lemma present_removeImage i j st :
  i <> j -> present i st = true -> present i (removeImage j st) = true.
Proof.
  unfold present. simpl. intros N. rewrite !existsb_exists.
  intros (img & Hin & Heq). exists img. split; [|done].
  apply filter_In. split; [done|].
  apply String.eqb_eq in Heq. apply negb_true_iff, String.eqb_neq. congruence.
Qed.

Lemma handleFiles_present env files st :
  slotsPresent st -> slotsPresent (handleFiles env files st).
Proof.
  intros P k i H. apply present_handleFiles, (P k).
  by destruct files.
Qed.

Lemma removeImage_present j st : slotsPresent st -> slotsPresent (removeImage j st).
Proof.
  intros P k i H. cbn [tags removeImage] in H.
  assert (i <> j) as N by (intros ->; by apply clearId_gone in H).
  apply present_removeImage; [done|]. apply (P k). by eapply clearId_keeps.
Qed.

Lemma handleTag_present i k st :
  present i st = true -> slotsPresent st -> slotsPresent (handleTag i k st).
Proof.
  intros Hi P k' j H. simpl in H. unfold tagUpdate in H.
  change (present j (handleTag i k st)) with (present j st).
  destruct (holds (tags st) k i) eqn:E.
  - destruct (decide (k = k')) as [->|N]; [by rewrite get_set_eq in H|].
    rewrite get_set_ne in H by done. by apply (P k').
  - destruct (decide (k = k')) as [->|N].
    + rewrite get_set_eq in H. by injection H as <-.
    + rewrite get_set_ne in H by done. apply (P k'). by eapply clearId_keeps.
Qed.

Lemma init_present : slotsPresent init.
Proof. intros k i H. cbn [tags init] in H. by rewrite get_allNull in H. Qed.

Lemma run_present ops st :
  tagsHeld ops st = true -> slotsPresent st -> slotsPresent (run ops st).
Proof.
  revert st. induction ops as [|op ops IH]; intros st V P; [done|].
  simpl in V. apply andb_true_iff in V as [V1 V2].
  simpl. apply IH; [done|].
  destruct op as [env files|j|j k]; simpl.
  - by apply handleFiles_present.
  - by apply removeImage_present.
  - by apply handleTag_present.
Qed.

(** *** The slot-tag map *)

Lemma present_lookup (n : nat) (image : ImageFile) (st : State) :
  imageFiles st !! n = Some image -> present (id image) st = true.
Proof.
  intros H. unfold present. apply existsb_exists. exists image.
  split; [|apply String.eqb_refl].
  apply list_elem_of_In. by eapply list_elem_of_lookup_2.
Qed.

Lemma click_tagsOk (c : Click) (st : State) : tagsOk st -> tagsOk (click c st).
Proof.
  intros [D P]. destruct c as [env files|n|n key]; simpl.
  - split; [by destruct files|by apply handleFiles_present].
  - destruct (imageFiles st !! n) as [image|]; [|done].
    split; [by apply clearId_distinct|by apply removeImage_present].
  - destruct (imageFiles st !! n) as [image|] eqn:E; [|done].
    destruct (isDisabled (tags st) (id image) key); [done|].
    split; [by apply tagUpdate_distinct|].
    apply handleTag_present; [by eapply present_lookup|done].
Qed.

(** C1: after every sequence of file additions, removals and taggings the
    uploader can receive, starting from the empty state, no two distinct
    slots hold the same identity and every identity held by a slot is the
    identity of an image of the current collection. *)
Theorem C1_slot_tags_never_clash_or_dangle (cs : list Click) :
  tagsOk (clicks cs init).
Proof.
  assert (forall st, tagsOk st -> tagsOk (clicks cs st)) as H.
  { induction cs as [|c cs IH]; intros st Hst; [done|].
    simpl. by apply IH, click_tagsOk. }
  apply H. split; [apply init_distinct|apply init_present].
Qed.

(** The handlers themselves take any identity: the invariant rests on the
    thumbnails, which pass the identity of a held image.  For sequences of
    handler calls it reads as follows. *)
Lemma run_tagsOk (ops : list Op) :
  tagsHeld ops init = true -> tagsOk (run ops init).
Proof.
  intros V. split.
  - apply run_distinct, init_distinct.
  - apply run_present; [done|apply init_present].
Qed.

(** The projection handed to the parent after the sample operations: only
    the second image is left, tagged as the top view. *)
Example taggedFiles_ops0 :
  taggedFiles (run ops0 init) = mkSlots (Some (photo "b.png")) None None.
Proof. reflexivity. Qed.

(** *** The cap of three images *)

Lemma slice0_take {A} (e : Z) (arr : list A) :
  (0 <= e)%Z -> slice0 e arr = take (Z.to_nat e) arr.
Proof.
  intros He. unfold slice0.
  destruct (Z.ltb_spec e 0) as [?|_]; [lia|].
  destruct (Z.le_ge_cases e (Z.of_nat (length arr))) as [L|G].
  - by rewrite Z.min_l.
  - rewrite Z.min_r, Nat2Z.id by lia.
    rewrite !take_ge; [done|lia|lia].
Qed.

Lemma map_file_imap (g : nat -> File -> ImageFile) (l : list File) :
  (forall i f, file (g i f) = f) -> map file (imap g l) = l.
Proof.
  revert g. induction l as [|f l IH]; intros g Hg; [done|].
  simpl. rewrite Hg. f_equal. apply IH. intros i f'. apply Hg.
Qed.

Lemma handleFiles_files env fs st :
  length (imageFiles st) <= 3 ->
  map file (imageFiles (handleFiles env (Some fs) st)) =
  map file (imageFiles st) ++
    take (3 - length (imageFiles st)) (List.filter isImage fs).
Proof.
  intros L. simpl. rewrite map_app. f_equal.
  rewrite slice0_take by lia.
  replace (Z.to_nat (3 - Z.of_nat (length (imageFiles st)))) with (3 - length (imageFiles st)) by lia.
  apply map_file_imap. done.
Qed.

Lemma apply_cap op st :
  length (imageFiles st) <= 3 -> length (imageFiles (apply op st)) <= 3.
Proof.
  intros L. destruct op as [env [fs|]|i|i k]; simpl; try done.
  - rewrite length_app, length_imap, slice0_take by lia.
    rewrite length_take. lia.
  - pose proof (filter_length_le (fun img => negb (String.eqb (id img) i)) (imageFiles st)).
    lia.
Qed.

Lemma run_cap ops st :
  length (imageFiles st) <= 3 -> length (imageFiles (run ops st)) <= 3.
Proof.
  revert st. induction ops as [|op ops IH]; intros st L; [done|].
  simpl. by apply IH, apply_cap.
Qed.

(** C7: after every sequence of operations from the empty state (so after
    every sequence of addFiles calls, whatever the number of files per call)
    the collection holds at most three images; a further addFiles call
    returns a state without raising, keeps the tags, and adds exactly the
    first files of image type that fit the free capacity, so the files of
    another type and the files beyond the capacity are dropped. *)
Theorem C7_at_most_three_images (ops : list Op) (env : Browser) (fs : list File) :
  let st := run ops init in
  length (imageFiles st) <= 3 /\
  length (imageFiles (handleFiles env (Some fs) st)) <= 3 /\
  map file (imageFiles (handleFiles env (Some fs) st)) =
    map file (imageFiles st) ++
      take (3 - length (imageFiles st))
           (List.filter (fun f => String.prefix "image/" (type f)) fs) /\
  tags (handleFiles env (Some fs) st) = tags st.
Proof.
  intros st.
  assert (length (imageFiles st) <= 3) as L by (apply run_cap; simpl; lia).
  split; [done|]. split; [by apply (apply_cap (AddFiles env (Some fs)))|].
  split; [by apply handleFiles_files|done].
Qed.

(** *** Tagging twice *)

(** C8, as stated, fails: when the slot already holds the identity, the
    first call empties the slot and the second call fills it again. *)
Lemma C8_tagged_slot_is_tagged_again :
  ~ (forall (st : State) (i : string) (k : ViewKey),
       get k (tags (handleTag i k (handleTag i k st))) = None).
Proof.
  intros H.
  specialize (H (mkState [] (mkSlots (Some "a") None None)) "a" top).
  discriminate H.
Qed.

(** C8, amended: for every state, identity and slot such that the slot does
    not already hold that identity, tagImage applied twice with the same
    arguments leaves the slot unassigned. *)
Theorem C8_tag_twice_untags (st : State) (i : string) (k : ViewKey) :
  get k (tags st) <> Some i ->
  get k (tags (handleTag i k (handleTag i k st))) = None.
Proof.
  intros N. apply holds_false in N. cbn [handleTag tags].
  unfold tagUpdate at 2. rewrite N.
  unfold tagUpdate.
  assert (holds (set k (Some i) (clearId i (tags st))) k i = true) as ->.
  { apply holds_true, get_set_eq. }
  apply get_set_eq.
Qed.

Lemma C8_tag_twice_untags_witness :
  get side (tags (run ops0 init)) <> Some "b.png-1700000000000-0.1" /\
  get side (tags (handleTag "b.png-1700000000000-0.1" side
                   (handleTag "b.png-1700000000000-0.1" side (run ops0 init)))) = None.
Proof.
  split; [discriminate|].
  apply (C8_tag_twice_untags (run ops0 init) "b.png-1700000000000-0.1" side).
  discriminate.
Defined.

End UploaderFacts.

(** ** Guided live scan *)
Module ScannerFacts.
Import Scanner.

(** The array lookup of [handleCapture] always finds the next view. *)
Lemma next_defined (v : ViewKey) :
  (indexOf v nextStepOrder <? Z.of_nat (length nextStepOrder) - 1)%Z = true ->
  is_Some (nextStepOrder !! Z.to_nat (indexOf v nextStepOrder + 1)).
Proof. destruct v; simpl; intros H; try discriminate; by eexists. Qed.

Lemma step_stopStream s : step (stopStream s) = step s.
Proof. unfold stopStream. by destruct (stream s). Qed.

Lemma files_stopStream s : files (stopStream s) = files s.
Proof. unfold stopStream. by destruct (stream s). Qed.

Lemma previews_stopStream s : previews (stopStream s) = previews s.
Proof. unfold stopStream. by destruct (stream s). Qed.

Lemma step_handleCapture f s :
  step (handleCapture f s) =
  match step s with
  | view v => if effective f then succPhase v else view v
  | st => st
  end.
Proof.
  unfold handleCapture, effective.
  destruct (step s) as [|v| |] eqn:E; try done.
  destruct (mounted f); simpl; [|done].
  destruct ((videoWidth f =? 0)%Z || (videoHeight f =? 0)%Z); simpl; [done|].
  destruct (blob f) as [b|]; simpl; [|done].
  destruct v; simpl; try done. by rewrite step_stopStream.
Qed.


(** *** What a capture writes *)

Lemma handleCapture_other_slots f s k :
  step s <> view k ->
  get k (files (handleCapture f s)) = get k (files s) /\
  get k (previews (handleCapture f s)) = get k (previews s).
Proof.
  intros N. unfold handleCapture.
  destruct (step s) as [|v| |] eqn:E; try done.
  destruct (negb (mounted f)); [done|].
  destruct ((videoWidth f =? 0)%Z || (videoHeight f =? 0)%Z); [done|].
  destruct (blob f) as [b|]; [|done].
  assert (v <> k) as N' by congruence.
  destruct v, k; simpl; rewrite ?files_stopStream, ?previews_stopStream; simpl;
    done.
Qed.

Lemma handleCapture_current_slot f s v :
  step s = view v -> effective f = true ->
  exists b, blob f = Some b /\
    get v (files (handleCapture f s)) =
      Some (blobToFile b (keyName v +:+ "_capture.jpg") (now f)) /\
    get v (previews (handleCapture f s)) = Some (objectURL f).
Proof.
  intros E Heff. unfold effective in Heff.
  apply andb_true_iff in Heff as [Heff Hb]. apply andb_true_iff in Heff as [Hm Hz].
  apply bool_decide_eq_true in Hb as [b Hb]. exists b. split; [done|].
  unfold handleCapture. rewrite E, Hm, Hb. simpl.
  apply negb_true_iff in Hz. rewrite Hz.
  destruct v; simpl; rewrite ?files_stopStream, ?previews_stopStream; simpl; done.
Qed.

(** *** The order of the phases *)



(** *** Releasing the camera *)







Lemma stopStream_stream s : stream (stopStream s) = None.
Proof. unfold stopStream. by destruct (stream s) eqn:E. Qed.












(** *** Retrying after a camera error *)




End ScannerFacts.

(** ** Analysis request *)
Module GeminiFacts.
Import Gemini.

Section Service.

Variable J : Type.
Variable JSON_parse : string -> option J.
Variable trim : string -> string.
Variable readAsDataURL : File -> string.
Variable remote : Request -> Thrown + option string.

Abbreviation analyze := (analyzeFootImage J JSON_parse trim readAsDataURL remote).

Lemma providedViews_empty (imageFiles : FootImages) :
  emptySet imageFiles ->
  List.filter (fun key => bool_decide (is_Some (field key imageFiles)))
              (objectKeys imageFiles) = [].
Proof.
  intros H. induction (objectKeys imageFiles) as [|k l IH]; [done|].
  simpl. by rewrite (H k).
Qed.

(** Whatever makes the body throw, the catch clause logs it and throws the
    one generic error. *)
Lemma tryCatch_generic {A} (body : M A) (w : World) (e : Thrown) :
  fst (tryCatch body
         (fun error =>
            consoleError "Error analyzing image with Gemini:" error ;;;
            throw (Error genericMessage)) w) = inl e ->
  e = Error genericMessage.
Proof.
  unfold tryCatch. destruct (body w) as [[e'|x] w']; simpl; congruence.
Qed.

(** C3, amended: for an image set without a populated slot the function
    fails at once and sends nothing to the remote model (the list of requests
    is as before); the local no-images error is raised and written to the
    console, and the error the caller receives is the generic one into which
    every failure is turned. *)
Theorem C3_empty_set_sends_nothing (imageFiles : FootImages) (w : World) :
  emptySet imageFiles ->
  analyze imageFiles w =
    (inl (Error genericMessage),
     mkWorld (console w ++ [("Error analyzing image with Gemini:", Error noImagesMessage)])
             (requests w)).
Proof.
  intros H. unfold analyzeFootImage, tryCatch.
  rewrite (providedViews_empty imageFiles H). reflexivity.
Qed.

(** C4, amended: every failure of the function, the failure for a missing
    image included, surfaces the one generic message also used for remote
    and parse failures, which is not the message of the local no-images
    error. *)
Theorem C4_every_failure_is_generic (imageFiles : FootImages) (w : World) (e : Thrown) :
  fst (analyze imageFiles w) = inl e ->
  e = Error genericMessage /\ e <> Error noImagesMessage.
Proof.
  intros H. apply tryCatch_generic in H. subst e. split; [done|].
  unfold genericMessage, noImagesMessage. congruence.
Qed.

End Service.

Lemma noImages_empty : emptySet noImages.
Proof. by intros k. Qed.

Lemma C3_empty_set_sends_nothing_witness :
  emptySet noImages /\
  analyzeFootImage string Some id dataURL1 remote0 noImages quiet =
    (inl (Error genericMessage),
     mkWorld [("Error analyzing image with Gemini:", Error noImagesMessage)] []).
Proof.
  split; [apply noImages_empty|].
  apply (C3_empty_set_sends_nothing string Some id dataURL1 remote0 noImages quiet).
  apply noImages_empty.
Defined.

(** C3, as stated, fails: the error with which the call for the empty image
    set fails is not the local no-images error. *)
Lemma C3_empty_set_fails_with_the_generic_error :
  ~ (fst (analyzeFootImage string Some id dataURL1 remote0 noImages quiet) =
       inl (Error noImagesMessage) /\
     requests (snd (analyzeFootImage string Some id dataURL1 remote0 noImages quiet)) = []).
Proof. intros [H _]. discriminate H. Qed.

Lemma C4_every_failure_is_generic_witness :
  fst (analyzeFootImage string Some id dataURL1 remote0 noImages quiet) =
    inl (Error genericMessage) /\
  Error genericMessage <> Error noImagesMessage.
Proof.
  split; [reflexivity|].
  apply (C4_every_failure_is_generic string Some id dataURL1 remote0 noImages quiet
           (Error genericMessage)).
  reflexivity.
Defined.

(** C4, as stated, fails: the message surfaced for the empty image set is the
    message surfaced when the remote model is down. *)
Lemma C4_no_image_message_is_the_generic_one :
  ~ (exists specific : string,
       fst (analyzeFootImage string Some id dataURL1 remote0 noImages quiet) =
         inl (Error specific) /\
       fst (analyzeFootImage string Some id dataURL1 remoteDown topOnly quiet) <>
         inl (Error specific)).
Proof. intros (m & H & N). injection H as <-. by apply N. Qed.

(** With one view the request goes out and a well-formed answer comes back. *)
Example analyze_side_only :
  let out := analyzeFootImage string Some id dataURL1 remote0 sideOnly quiet in
  fst out = inr "{}" /\
  map parts (requests (snd out)) =
    [[TextPart (promptHead +:+ "side" +:+ promptTail);
      TextPart "Side View (Arch) of the foot:";
      InlineData (Some "AAAA") "image/jpeg"]].
Proof. split; reflexivity. Qed.

(** The prompt lists the views in the order of the keys of the object, the
    images follow in the order top, side, back. *)
Example analyze_back_then_top :
  let out := analyzeFootImage string Some id dataURL1 remote0 backThenTop quiet in
  map parts (requests (snd out)) =
    [[TextPart (promptHead +:+ "back, top" +:+ promptTail);
      TextPart "Top View of the foot:";
      InlineData (Some "AAAA") "image/jpeg";
      TextPart "Back View (Heel) of the foot:";
      InlineData (Some "AAAA") "image/jpeg"]].
Proof. reflexivity. Qed.

End GeminiFacts.

(** ** Consultation summary *)
Module TelemedicineFacts.
Import Telemedicine.

Lemma append_assoc (s1 s2 s3 : string) : (s1 +:+ s2) +:+ s3 = s1 +:+ (s2 +:+ s3).
Proof.
  induction s1 as [|c s1 IH]; [done|].
  change (String c ((s1 +:+ s2) +:+ s3) = String c (s1 +:+ (s2 +:+ s3))).
  by rewrite IH.
Qed.

Lemma formatPotentialIssues_body (issues : list PotentialIssue) :
  formatPotentialIssues (Some issues) = issuesBody issues.
Proof. by destruct issues. Qed.

(** C9: the message for a present result is the fixed heading followed by the
    sections arch type, potential issues, summary, footwear suggestions and
    clinical recommendations, in this order, and by the confidence-score
    line; the issues are one bulleted line "<issue> (<severity>):
    <description>" each, and for an empty list the words "None detected"
    stand in their place. *)
Theorem C9_message_layout (r : AnalysisResult) :
  analysisSummaryForEmail (Some r) = layout r /\
  (potentialIssues r = [] ->
     formatPotentialIssues (Some (potentialIssues r)) = "None detected") /\
  (potentialIssues r <> [] ->
     formatPotentialIssues (Some (potentialIssues r)) =
       String.concat nl
         (map (fun i => "• " +:+ issue i +:+ " (" +:+ severity i +:+ "): " +:+ description i)
              (potentialIssues r))).
Proof.
  split; [|split].
  - unfold analysisSummaryForEmail, template, layout, section.
    cbn [fmap option_fmap option_map String.concat].
    rewrite formatPotentialIssues_body.
    rewrite !append_assoc. reflexivity.
  - by intros ->.
  - intros N. rewrite formatPotentialIssues_body.
    by destruct (potentialIssues r).
Qed.

Lemma C9_message_layout_witness :
  (potentialIssues result0 = [] /\ potentialIssues result1 <> []) /\
  analysisSummaryForEmail (Some result1) = layout result1 /\
  formatPotentialIssues (Some (potentialIssues result0)) = "None detected" /\
  formatPotentialIssues (Some (potentialIssues result1)) =
    "• Bunion (Mild): Slight deviation of the big toe, seen in the Top View.".
Proof.
  split; [split; [reflexivity|discriminate]|].
  destruct (C9_message_layout result1) as (A & _ & C).
  destruct (C9_message_layout result0) as (_ & B & _).
  split; [exact A|]. split; [apply B; reflexivity|].
  apply C. discriminate.
Defined.

(** The whole message of a result, as the text area shows it. *)
Example message_of_result1 :
  analysisSummaryForEmail (Some result1) =
  String.concat nl
    [ "--- AI Analysis Summary ---"; EmptyString;
      "Arch Type:"; "Flat"; EmptyString;
      "Potential Issues:";
      "• Bunion (Mild): Slight deviation of the big toe, seen in the Top View."; EmptyString;
      "AI Summary:"; "The arch is low."; EmptyString;
      "Footwear Suggestions:"; "• Stability shoes"; "• Arch support insoles"; EmptyString;
      "Clinical Recommendations:"; "• Orthotic assessment"; EmptyString;
      "Confidence Score: 87%"; "  " ].
Proof. reflexivity. Qed.

(** Without a result every interpolation falls back to its placeholder. *)
Example message_without_result :
  analysisSummaryForEmail None =
  template "N/A" "None detected" "N/A" "N/A" "N/A" "N/A".
Proof. reflexivity. Qed.

(** C10: for a present result, a confidence score of 0, an empty arch type and
    an empty summary are each shown as "N/A" where the value would stand,
    the rest of the message being as for any other result. *)
Theorem C10_falsy_fields_render_placeholder (r : AnalysisResult) :
  let message arch summ confidence :=
    template arch
      (formatPotentialIssues (Some (potentialIssues r)))
      summ
      (orNA (bullets (Some (footwearSuggestions r))))
      (orNA (bullets (Some (clinicalRecommendations r))))
      confidence in
  (confidenceScore r = 0%Z ->
     analysisSummaryForEmail (Some r) =
       message (orNA (Some (archType r))) (orNA (Some (summary r))) "N/A") /\
  (archType r = EmptyString ->
     analysisSummaryForEmail (Some r) =
       message "N/A" (orNA (Some (summary r))) (numberOrNA (Some (confidenceScore r)))) /\
  (summary r = EmptyString ->
     analysisSummaryForEmail (Some r) =
       message (orNA (Some (archType r))) "N/A" (numberOrNA (Some (confidenceScore r)))).
Proof.
  intros message. subst message. unfold analysisSummaryForEmail.
  cbn [fmap option_fmap option_map].
  split; [|split]; intros E; rewrite E; reflexivity.
Qed.

Lemma C10_falsy_fields_render_placeholder_witness :
  (confidenceScore result0 = 0%Z /\ archType result0 = EmptyString /\ summary result0 = EmptyString) /\
  analysisSummaryForEmail (Some result0) =
    template "N/A" "None detected" "N/A" "• Stability shoes" "• Orthotic assessment" "N/A".
Proof.
  split; [repeat split|].
  destruct (C10_falsy_fields_render_placeholder result0) as (A & _ & _).
  exact (A eq_refl).
Defined.

End TelemedicineFacts.

(** ** Manual capture and tagging: removal, tagging and the projection *)
Module UploaderMore.
Import Uploader UploaderFacts.

Lemma present_filter_out (i j : string) (l : list ImageFile) :
  existsb (fun img => String.eqb (id img) j)
          (List.filter (fun img => negb (String.eqb (id img) i)) l) =
  negb (String.eqb j i) && existsb (fun img => String.eqb (id img) j) l.
Proof.
  induction l as [|img l IH]; simpl; [by rewrite andb_false_r|].
  destruct (String.eqb_spec (id img) i) as [E|N]; simpl.
  - rewrite IH. destruct (String.eqb_spec (id img) j) as [E'|N']; simpl; [|done].
    assert (j = i) as -> by congruence. by rewrite String.eqb_refl.
  - rewrite IH. destruct (String.eqb_spec (id img) j) as [E'|N']; simpl; [|done].
    subst j. apply String.eqb_neq in N. rewrite N. done.
Qed.

(** X1: [removeImage] removes exactly the images that have the identity and
    empties exactly the slots that held it: afterwards an identity is held
    when it is another one and was held before, and a slot keeps what it had
    unless it had the removed identity. *)
Theorem X1_removeImage_forgets (i j : string) (k : ViewKey) (st : State) :
  present j (removeImage i st) = negb (String.eqb j i) && present j st /\
  get k (tags (removeImage i st)) =
    (if holds (tags st) k i then None else get k (tags st)).
Proof.
  split; [apply present_filter_out|apply get_clearId].
Qed.

Lemma get_handleTag (i : string) (k k' : ViewKey) (st : State) :
  get k' (tags (handleTag i k st)) =
    (if holds (tags st) k i
     then if decide (k' = k) then None else get k' (tags st)
     else if decide (k' = k) then Some i
          else if holds (tags st) k' i then None else get k' (tags st)).
Proof.
  cbn [handleTag tags]. unfold tagUpdate.
  destruct (holds (tags st) k i) eqn:E; destruct (decide (k' = k)) as [->|N].
  - apply get_set_eq.
  - by rewrite get_set_ne.
  - apply get_set_eq.
  - rewrite get_set_ne by done. apply get_clearId.
Qed.

(** X2: the net effect of [handleTag(i, k)] on every slot [k']: when slot [k]
    holds [i] it is emptied and nothing else changes; otherwise slot [k]
    takes [i] (whoever held it loses it), the slot that held [i] before is
    emptied, and the other slots keep what they had.  The images are not
    touched. *)
Theorem X2_handleTag_moves_the_tag (i : string) (k k' : ViewKey) (st : State) :
  get k' (tags (handleTag i k st)) =
    (if holds (tags st) k i
     then if decide (k' = k) then None else get k' (tags st)
     else if decide (k' = k) then Some i
          else if holds (tags st) k' i then None else get k' (tags st)) /\
  imageFiles (handleTag i k st) = imageFiles st.
Proof. split; [apply get_handleTag|done]. Qed.

(** X3: a click on a tag button that is not disabled never touches the slot of
    another image: a slot holds another identity afterwards exactly when it
    held it before. *)
Theorem X3_enabled_tag_spares_other_images
    (i j : string) (k k' : ViewKey) (st : State) :
  isDisabled (tags st) i k = false -> j <> i ->
  (get k' (tags (handleTag i k st)) = Some j <-> get k' (tags st) = Some j).
Proof.
  intros En N.
  rewrite get_handleTag.
  unfold isDisabled in En. unfold holds.
  destruct (decide (k' = k)) as [->|Nk].
  - destruct (get k (tags st)) as [x|] eqn:G.
    + apply negb_false_iff, String.eqb_eq in En. subst x.
      rewrite String.eqb_refl. split; [done|congruence].
    + split; congruence.
  - destruct (get k (tags st)) as [x|] eqn:G.
    + apply negb_false_iff, String.eqb_eq in En. subst x.
      rewrite String.eqb_refl. done.
    + destruct (get k' (tags st)) as [y|] eqn:G'; [|done].
      destruct (String.eqb_spec y i) as [->|Ny]; [|done].
      split; [done|congruence].
Qed.

Lemma X3_enabled_tag_spares_other_images_witness :
  let st := run (firstn 3 ops0) init in
  (isDisabled (tags st) "b.png-1700000000000-0.1" top = false /\
   "a.png-1700000000000-0.0" <> "b.png-1700000000000-0.1") /\
  (get side (tags (handleTag "b.png-1700000000000-0.1" top st)) =
     Some "a.png-1700000000000-0.0" <->
   get side (tags st) = Some "a.png-1700000000000-0.0").
Proof.
  intros st. split; [split; [reflexivity|discriminate]|].
  apply (X3_enabled_tag_spares_other_images
           "b.png-1700000000000-0.1" "a.png-1700000000000-0.0" top side st);
    [reflexivity|discriminate].
Defined.

(** *** The projection handed to the parent *)

Lemma get_taggedFiles (k : ViewKey) (st : State) :
  get k (taggedFiles st) =
  match get k (tags st) with
  | Some i =>
      if String.eqb i EmptyString then None
      else file <$> List.find (fun img => String.eqb (id img) i) (imageFiles st)
  | None => None
  end.
Proof.
  destruct k; unfold taggedFiles; simpl;
    (match goal with |- context [match ?t with Some _ => _ | None => _ end] =>
       destruct t as [i|]; [|done] end);
    (destruct (String.eqb i EmptyString); [done|]);
    by destruct (List.find _ _).
Qed.

(** Every identity [handleFiles] makes has a dash in it, so it is not the
    empty string. *)
Lemma made_id_nonempty (a b : string) : a +:+ "-" +:+ b <> EmptyString.
Proof. by destruct a. Qed.

Lemma apply_namedImages (op : Op) (st : State) :
  namedImages st -> namedImages (apply op st).
Proof.
  intros H. destruct op as [env [fs|]|i|i k]; simpl; try done.
  - intros img I. cbn [imageFiles] in I. apply elem_of_app in I as [I|I]; [by apply H|].
    apply elem_of_lookup_imap in I as (n & f & -> & _). apply made_id_nonempty.
  - intros img I. cbn [imageFiles] in I. apply H.
    apply list_elem_of_In in I. apply filter_In in I as [I _]. by apply list_elem_of_In.
Qed.

Lemma run_namedImages (ops : list Op) (st : State) :
  namedImages st -> namedImages (run ops st).
Proof.
  revert st. induction ops as [|op ops IH]; intros st H; [done|].
  simpl. by apply IH, apply_namedImages.
Qed.

Lemma init_namedImages : namedImages init.
Proof. intros img I. by apply elem_of_nil in I. Qed.

Lemma find_present (i : string) (st : State) :
  present i st = true ->
  exists img, List.find (fun img => String.eqb (id img) i) (imageFiles st) = Some img /\
              img ∈ imageFiles st /\ id img = i.
Proof.
  unfold present. induction (imageFiles st) as [|img l IH]; simpl; [discriminate|].
  destruct (String.eqb_spec (id img) i) as [E|N]; simpl.
  - intros _. exists img. split; [done|]. split; [apply elem_of_cons; by left|done].
  - intros H. destruct (IH H) as (img' & F & I & E). exists img'.
    split; [done|]. split; [apply elem_of_cons; by right|done].
Qed.

(** X4: when every tag of a run names a held image, the image set handed to the
    parent has a file in exactly the tagged slots, and the file of a tagged
    slot is the file of a held image with the identity of the slot. *)
Theorem X4_projection_follows_tags (ops : list Op) (k : ViewKey) :
  tagsHeld ops init = true ->
  let st := run ops init in
  match get k (tags st) with
  | Some i => exists img, img ∈ imageFiles st /\ id img = i /\
                          get k (taggedFiles st) = Some (file img)
  | None => get k (taggedFiles st) = None
  end.
Proof.
  intros V st. rewrite get_taggedFiles.
  destruct (get k (tags st)) as [i|] eqn:G; [|done].
  assert (present i st = true) as P.
  { apply (run_present ops init V init_present k). exact G. }
  destruct (find_present i st P) as (img & F & I & E).
  exists img. rewrite F.
  assert (i <> EmptyString) as N.
  { rewrite <- E. by apply (run_namedImages ops init init_namedImages). }
  apply String.eqb_neq in N. by rewrite N.
Qed.

Lemma X4_projection_follows_tags_witness :
  tagsHeld ops0 init = true /\
  exists img, img ∈ imageFiles (run ops0 init) /\
              id img = "b.png-1700000000000-0.1" /\
              get top (taggedFiles (run ops0 init)) = Some (file img).
Proof.
  split; [reflexivity|].
  apply (X4_projection_follows_tags ops0 top). reflexivity.
Defined.

Lemma find_app_l {A} (p : A -> bool) (l1 l2 : list A) (x : A) :
  List.find p l1 = Some x -> List.find p (l1 ++ l2) = Some x.
Proof.
  induction l1 as [|y l1 IH]; simpl; [discriminate|]. by destruct (p y).
Qed.

(** X5: adding files never changes the image set handed to the parent, as long
    as every tagged identity is the identity of a held image. *)
Theorem X5_adding_files_keeps_projection
    (env : Browser) (files : option (list File)) (st : State) :
  slotsPresent st -> taggedFiles (handleFiles env files st) = taggedFiles st.
Proof.
  intros P. destruct files as [fs|]; [|done].
  assert (forall k, get k (taggedFiles (handleFiles env (Some fs) st)) =
                    get k (taggedFiles st)) as H.
  { intros k. rewrite !get_taggedFiles. cbn [handleFiles tags imageFiles].
    destruct (get k (tags st)) as [i|] eqn:G; [|done].
    destruct (String.eqb i EmptyString); [done|].
    destruct (find_present i st (P k i G)) as (img & F & _ & _).
    rewrite F. by rewrite (find_app_l _ _ _ _ F). }
  pose proof (H top) as Ht. pose proof (H side) as Hs. pose proof (H back) as Hb.
  destruct (taggedFiles (handleFiles env (Some fs) st)), (taggedFiles st).
  simpl in *. congruence.
Qed.

Lemma X5_adding_files_keeps_projection_witness :
  slotsPresent (run ops0 init) /\
  taggedFiles (handleFiles browser0 (Some [photo "c.png"]) (run ops0 init)) =
  taggedFiles (run ops0 init).
Proof.
  assert (slotsPresent (run ops0 init)) as P.
  { apply run_present; [reflexivity|apply init_present]. }
  split; [exact P|].
  apply (X5_adding_files_keeps_projection browser0 (Some [photo "c.png"]) (run ops0 init) P).
Defined.

(** X6: with three images held, [handleFiles] changes nothing, whatever the
    files. *)
Theorem X6_full_collection_ignores_files
    (env : Browser) (files : option (list File)) (st : State) :
  length (imageFiles st) = 3 -> handleFiles env files st = st.
Proof.
  intros L. destruct files as [fs|]; [|done]. unfold handleFiles.
  rewrite L. change (3 - Z.of_nat 3)%Z with 0%Z. rewrite slice0_take by lia.
  simpl. rewrite app_nil_r. by destruct st.
Qed.

Lemma X6_full_collection_ignores_files_witness :
  let st := handleFiles browser0
              (Some [photo "a.png"; photo "b.png"; photo "c.png"; photo "d.png"]) init in
  length (imageFiles st) = 3 /\
  handleFiles browser0 (Some [photo "e.png"]) st = st.
Proof.
  intros st. split; [reflexivity|].
  apply (X6_full_collection_ignores_files browser0 (Some [photo "e.png"]) st).
  reflexivity.
Defined.

(** X7: when no two slots share an identity, the view a thumbnail shows as
    claimed is the one slot that holds the identity of its image. *)
Theorem X7_claimedView_is_the_slot (t : Tags) (i : string) (k : ViewKey) :
  distinctSlots t -> (claimedView t i = Some k <-> get k t = Some i).
Proof.
  intros D. unfold claimedView. split.
  - intros F. apply find_some in F as [_ H]. by apply holds_true.
  - intros G.
    assert (forall k', holds t k' i = true -> k' = k) as U.
    { intros k' H. apply holds_true in H. by apply (D k' k i). }
    apply holds_true in G.
    unfold keys. simpl.
    destruct (holds t top i) eqn:Ht; [by rewrite (U top Ht)|].
    destruct (holds t side i) eqn:Hs; [by rewrite (U side Hs)|].
    destruct (holds t back i) eqn:Hb; [by rewrite (U back Hb)|].
    destruct k; congruence.
Qed.

Lemma X7_claimedView_is_the_slot_witness :
  distinctSlots (tags (run ops0 init)) /\
  (claimedView (tags (run ops0 init)) "b.png-1700000000000-0.1" = Some top <->
   get top (tags (run ops0 init)) = Some "b.png-1700000000000-0.1").
Proof.
  assert (distinctSlots (tags (run ops0 init))) as D.
  { apply run_distinct, init_distinct. }
  split; [exact D|].
  apply (X7_claimedView_is_the_slot (tags (run ops0 init)) "b.png-1700000000000-0.1" top D).
Defined.

Lemma find_filter_out (i j : string) (l : list ImageFile) :
  j <> i ->
  List.find (fun img => String.eqb (id img) j)
            (List.filter (fun img => negb (String.eqb (id img) i)) l) =
  List.find (fun img => String.eqb (id img) j) l.
Proof.
  intros N. induction l as [|img l IH]; simpl; [done|].
  destruct (String.eqb_spec (id img) i) as [E|N']; simpl.
  - destruct (String.eqb_spec (id img) j) as [E'|_]; [congruence|done].
  - by rewrite IH.
Qed.

(** X8: removing an image takes its file out of the image set handed to the
    parent and leaves the other slots of that set as they were. *)
Theorem X8_removal_in_the_projection (i : string) (k : ViewKey) (st : State) :
  get k (taggedFiles (removeImage i st)) =
    (if holds (tags st) k i then None else get k (taggedFiles st)).
Proof.
  rewrite !get_taggedFiles. cbn [removeImage tags imageFiles].
  rewrite get_clearId. destruct (holds (tags st) k i) eqn:H; [done|].
  destruct (get k (tags st)) as [j|] eqn:G; [|done].
  destruct (String.eqb j EmptyString); [done|].
  rewrite find_filter_out; [done|].
  intros ->. apply holds_false in H. done.
Qed.

End UploaderMore.

(** ** Guided live scan: animation, files, camera *)
Module ScannerMore.
Import Scanner ScannerFacts.

(** X9: the idle animation shows the three views in turn, top, then side,
    then back, then top again: from every view the next one exists, the
    third step comes back to the view it started from, and the three views
    passed are different. *)
Theorem X9_animation_cycles (v : ViewKey) :
  (nextView top = Some side /\ nextView side = Some back /\ nextView back = Some top) /\
  exists a b, nextView v = Some a /\ nextView a = Some b /\ nextView b = Some v /\
              a <> v /\ b <> v /\ a <> b.
Proof.
  split; [by repeat split|].
  destruct v.
  - exists side, back. by repeat split.
  - exists back, top. by repeat split.
  - exists top, side. by repeat split.
Qed.

(** *** A capture that is not ready *)

Lemma handleCapture_unready (f : Frame) (s : State) :
  effective f = false \/ isScanning (step s) = false -> handleCapture f s = s.
Proof.
  intros H. unfold handleCapture.
  destruct (step s) as [|v| |] eqn:E; try done.
  destruct H as [H|H]; [|discriminate H].
  unfold effective in H.
  destruct (mounted f); simpl in *; [|done].
  destruct ((videoWidth f =? 0)%Z || (videoHeight f =? 0)%Z); simpl in *; [done|].
  destruct (blob f); [|done]. discriminate H.
Qed.

(** X12: a capture outside a capturing phase, with a ref missing, with a video
    frame of width or height zero, or without a blob changes nothing at all:
    step, files, previews, camera and the parent stay as they are. *)
Theorem X12_unready_capture_is_ignored (f : Frame) (s : State) :
  effective f = false \/ isScanning (step s) = false -> handleCapture f s = s.
Proof. apply handleCapture_unready. Qed.

Lemma X12_unready_capture_is_ignored_witness :
  (effective frame0 = false \/ isScanning (step scanning) = false) /\
  handleCapture frame0 scanning = scanning.
Proof.
  split; [left; reflexivity|].
  apply (X12_unready_capture_is_ignored frame0 scanning). left. reflexivity.
Defined.

(** *** What an effective capture does, field by field *)

Lemma offered_capture_view (s : State) (f : Frame) :
  offered (step s) (Capture f) = true -> exists v, step s = view v.
Proof. simpl. destruct (step s) as [|v| |]; try discriminate. by exists v. Qed.

Lemma captured_succ (v k : ViewKey) :
  captured (succPhase v) k = if decide (k = v) then true else captured (view v) k.
Proof. by destruct v, k. Qed.

Lemma emitted_stopStream s : emitted (stopStream s) = emitted s.
Proof. unfold stopStream. by destruct (stream s). Qed.

Lemma handleCapture_emits (f : Frame) (s : State) (v : ViewKey) :
  step s = view v -> effective f = true ->
  emitted (handleCapture f s) = emitted s ++ [files (handleCapture f s)].
Proof.
  intros E Heff. unfold effective in Heff.
  apply andb_true_iff in Heff as [Heff Hb]. apply andb_true_iff in Heff as [Hm Hz].
  apply bool_decide_eq_true in Hb as [b Hb]. apply negb_true_iff in Hz.
  unfold handleCapture. rewrite E, Hm, Hb. simpl. rewrite Hz.
  destruct v; simpl; rewrite ?emitted_stopStream, ?files_stopStream; done.
Qed.

Lemma handleCapture_camera (f : Frame) (s : State) :
  (stream (handleCapture f s) = stream s /\ tracks (handleCapture f s) = tracks s /\
   isScanning (step (handleCapture f s)) = isScanning (step s)) \/
  (stream (handleCapture f s) = None /\ step (handleCapture f s) = done /\
   tracks (handleCapture f s) = tracks (stopStream s)).
Proof.
  unfold handleCapture.
  destruct (step s) as [|v| |] eqn:E; try (left; by rewrite E).
  destruct (negb (mounted f)); [left; by rewrite E|].
  destruct ((videoWidth f =? 0)%Z || (videoHeight f =? 0)%Z); [left; by rewrite E|].
  destruct (blob f) as [b|]; [|left; by rewrite E].
  destruct v; simpl; [by left|by left|].
  right. rewrite stopStream_stream, step_stopStream. split; [done|]. split; [done|].
  unfold stopStream. simpl. by destruct (stream s).
Qed.

(** *** The filled slots *)

Lemma dispatch_slotsMatch (e : Event) (s : State) :
  slotsMatch s -> slotsMatch (dispatch e s).
Proof.
  intros H. unfold dispatch. destruct (offered (step s) e) eqn:Off; [|done].
  destruct e as [g|f|]; cbn [handler].
  - simpl in Off. apply bool_decide_eq_true in Off.
    intros k. specialize (H k). rewrite Off in H. simpl in H.
    destruct g as [n|]; simpl; [|done]. by destruct k.
  - destruct (effective f) eqn:Heff; [|by rewrite handleCapture_unready; [|left]].
    destruct (offered_capture_view s f Off) as [v E].
    intros k. specialize (H k). rewrite E in H.
    rewrite step_handleCapture, E, Heff, captured_succ.
    destruct (decide (k = v)) as [->|N].
    + destruct (handleCapture_current_slot f s v E Heff) as (b & _ & Hf & Hp).
      rewrite Hf, Hp. split; [|by eexists]. by eexists.
    + assert (step s <> view k) as N' by (rewrite E; congruence).
      destruct (handleCapture_other_slots f s k N') as [-> ->]. exact H.
  - intros k. simpl. by rewrite !get_allNull.
Qed.

Lemma run_slotsMatch (evs : list Event) (s : State) :
  slotsMatch s -> slotsMatch (run evs s).
Proof.
  revert s. induction evs as [|e evs IH]; intros s H; [done|].
  simpl. by apply IH, dispatch_slotsMatch.
Qed.

Lemma init_slotsMatch : slotsMatch init.
Proof. intros k. simpl. by rewrite !get_allNull. Qed.

(** *** What the parent knows *)

Lemma handler_emitted (e : Event) (s : State) :
  offered (step s) e = true ->
  (emitted (handler e s) = emitted s /\ files (handler e s) = files s) \/
  emitted (handler e s) = emitted s ++ [files (handler e s)].
Proof.
  intros Off. destruct e as [g|f|]; cbn [handler].
  - left. by destruct g.
  - destruct (effective f) eqn:Heff; [|left; by rewrite handleCapture_unready; [|left]].
    destruct (offered_capture_view s f Off) as [v E].
    right. by apply (handleCapture_emits f s v).
  - right. simpl. by rewrite emitted_stopStream.
Qed.

Lemma dispatch_parentSynced (e : Event) (s : State) :
  parentSynced s -> parentSynced (dispatch e s).
Proof.
  intros H. unfold dispatch. destruct (offered (step s) e) eqn:Off; [|done].
  unfold parentSynced in *.
  destruct (handler_emitted e s Off) as [[-> ->]| ->]; [done|].
  by rewrite last_snoc.
Qed.

Lemma run_parentSynced (evs : list Event) (s : State) :
  parentSynced s -> parentSynced (run evs s).
Proof.
  revert s. induction evs as [|e evs IH]; intros s Hs; [done|].
  simpl. by apply IH, dispatch_parentSynced.
Qed.

(** X11: in every state the scanner reaches, the image set it last handed to the
    parent is the set of files it holds (and it holds none as long as it has
    handed over nothing). *)
Theorem X11_parent_holds_current_files (evs : list Event) :
  parentSynced (run evs init).
Proof. apply run_parentSynced. reflexivity. Qed.

(** *** The camera *)

Lemma startScan_live (g : option nat) (s : State) : cameraLive s -> cameraLive (startScan g s).
Proof.
  intros [Sc Live]. destruct g as [n|]; simpl.
  - split; [by eexists|]. simpl. intros ms t [= <-] I.
    apply elem_of_seq in I.
    rewrite lookup_app_r by lia. apply lookup_replicate_2. lia.
  - split; [done|]. apply Live.
Qed.

Lemma dispatch_live (e : Event) (s : State) : cameraLive s -> cameraLive (dispatch e s).
Proof.
  intros L. unfold dispatch. destruct (offered (step s) e) eqn:Off; [|done].
  destruct e as [g|f|]; cbn [handler].
  - by apply startScan_live.
  - destruct L as [Sc Live].
    destruct (handleCapture_camera f s) as [(Es & Et & Ec)|(Es & Ed & _)].
    + split; [rewrite Es, Ec; apply Sc|]. rewrite Es, Et. apply Live.
    + split; [by rewrite Ed|]. rewrite Es. done.
  - split; [done|]. intros ms t E. simpl in E. by rewrite stopStream_stream in E.
Qed.

Lemma run_live (evs : list Event) (s : State) : cameraLive s -> cameraLive (run evs s).
Proof.
  revert s. induction evs as [|e evs IH]; intros s L; [done|].
  simpl. by apply IH, dispatch_live.
Qed.

Lemma init_live : cameraLive init.
Proof. split; [done|]. intros ms t E. discriminate E. Qed.


Lemma stopTrack_keeps_stopped ts m t :
  ts !! t = Some false -> stopTrack ts m !! t = Some false.
Proof.
  intros H. unfold stopTrack. destruct (decide (m = t)) as [->|N].
  - apply list_lookup_insert_eq. by eapply lookup_lt_Some.
  - by rewrite list_lookup_insert_ne.
Qed.

Lemma stopAll_keeps_stopped ms ts t :
  ts !! t = Some false -> foldl stopTrack ts ms !! t = Some false.
Proof.
  revert ts. induction ms as [|m ms IH]; intros ts H; [done|].
  simpl. by apply IH, stopTrack_keeps_stopped.
Qed.

Lemma stopStream_keeps_stopped s t :
  tracks s !! t = Some false -> tracks (stopStream s) !! t = Some false.
Proof.
  intros H. unfold stopStream. destruct (stream s); [|done].
  simpl. by apply stopAll_keeps_stopped.
Qed.

Lemma dispatch_keeps_stopped (e : Event) (s : State) (t : nat) :
  tracks s !! t = Some false -> tracks (dispatch e s) !! t = Some false.
Proof.
  intros H. unfold dispatch. destruct (offered (step s) e); [|done].
  destruct e as [[n|]|f|]; cbn [handler]; simpl.
  - by apply lookup_app_l_Some.
  - done.
  - destruct (handleCapture_camera f s) as [(_ & -> & _)|(_ & _ & ->)]; [done|].
    by apply stopStream_keeps_stopped.
  - by apply stopStream_keeps_stopped.
Qed.

(** X14: a camera track that has been stopped is never live again, whatever the
    scanner does afterwards. *)
Theorem X14_stopped_track_stays_stopped (evs : list Event) (s : State) (t : nat) :
  tracks s !! t = Some false -> tracks (run evs s) !! t = Some false.
Proof.
  revert s. induction evs as [|e evs IH]; intros s H; [done|].
  simpl. by apply IH, dispatch_keeps_stopped.
Qed.

Lemma X14_stopped_track_stays_stopped_witness :
  let s := run [StartScan (Some 2); Reset] init in
  tracks s !! 0 = Some false /\
  tracks (run fullScan s) !! 0 = Some false.
Proof.
  intros s. split; [reflexivity|].
  apply (X14_stopped_track_stays_stopped fullScan s 0). reflexivity.
Defined.

(** X15: unmounting the scanner releases nothing: the cleanup closed over the
    stream of the first render, which is none, so in every state the scanner
    reaches the tracks of the stream it holds are still live after the
    unmount. *)
Theorem X15_unmount_leaves_camera_on (evs : list Event) (ms : MediaStream) (t : nat) :
  stream (run evs init) = Some ms -> t ∈ ms ->
  tracks (unmount (run evs init)) !! t = Some true.
Proof.
  intros E I. destruct (run_live evs init init_live) as [_ Live].
  change (unmount (run evs init)) with (run evs init). by apply (Live ms).
Qed.

Lemma X15_unmount_leaves_camera_on_witness :
  (stream (run [StartScan (Some 2); Capture frame1] init) = Some [0; 1] /\ 1 ∈ [0; 1]) /\
  tracks (unmount (run [StartScan (Some 2); Capture frame1] init)) !! 1 = Some true.
Proof.
  assert (1 ∈ [0; 1]) as I by (apply elem_of_cons; right; apply elem_of_cons; by left).
  split; [split; [reflexivity|exact I]|].
  apply (X15_unmount_leaves_camera_on [StartScan (Some 2); Capture frame1] [0; 1] 1);
    [reflexivity|exact I].
Defined.



End ScannerMore.

(** ** Guided live scan: continuations that come late *)
Module ScannerAsyncFacts.
Import Scanner ScannerFacts ScannerMore.

(** *** The settled steps are the asynchronous ones, run without a gap *)

Lemma handleCapture_settles_at_once (f : Frame) (s : State) :
  handleCapture f s =
  match captureClick f s with
  | Some shot => toBlobCallback shot s
  | None => s
  end.
Proof.
  unfold handleCapture, captureClick, toBlobCallback.
  destruct (step s) as [|v| |]; try done.
  destruct (negb (mounted f)); [done|].
  destruct ((videoWidth f =? 0)%Z || (videoHeight f =? 0)%Z); [done|].
  simpl. destruct (blob f) as [b|]; [|done].
  by destruct v.
Qed.

Lemma settled_at_once (e : Event) (s : State) :
  asyncRun (settledAtOnce e) (settled s) = settled (dispatch e s).
Proof.
  unfold dispatch. destruct e as [g|f|]; simpl.
  - by destruct (bool_decide (step s = idle)).
  - rewrite handleCapture_settles_at_once.
    destruct (isScanning (step s)); [|done].
    by destruct (captureClick f s).
  - by destruct (bool_decide (step s = error) || isScanning (step s) || bool_decide (step s = done)).
Qed.

Lemma sequential_run (evs : list Event) (s : State) :
  asyncRun (sequential evs) (settled s) = settled (run evs s).
Proof.
  revert s. induction evs as [|e evs IH]; intros s; [done|].
  unfold sequential, asyncRun in *. simpl. rewrite foldl_app.
  pose proof (settled_at_once e s) as H. unfold asyncRun in H. rewrite H.
  apply IH.
Qed.





(** Whatever happens, the parent is told the files whenever they change. *)
Lemma asyncStep_emitted (e : AsyncEvent) (a : Async) :
  (emitted (rendered (asyncStep e a)) = emitted (rendered a) /\
   files (rendered (asyncStep e a)) = files (rendered a)) \/
  emitted (rendered (asyncStep e a)) =
    emitted (rendered a) ++ [files (rendered (asyncStep e a))].
Proof.
  destruct a as [s n sh]. destruct e as [|g|f|k|]; simpl.
  - destruct (bool_decide _); by left.
  - destruct n; [by left|]. destruct g; by left.
  - destruct (isScanning _); [|by left]. destruct (captureClick f s); by left.
  - destruct (sh !! k) as [shot|]; [|by left]. simpl. unfold toBlobCallback.
    destruct (blob (shotFrame shot)); [|by left]. right.
    destruct (shotStep shot); simpl; try done. by destruct (shotStream shot).
  - destruct (_ || _); [|by left]. right. unfold handleReset, stopStream.
    by destruct (stream s).
Qed.

(** *** The slot a capture writes, the order of the phases *)









(** *** Reset and the camera *)





(** *** What holds when nothing comes late *)

(** X10: in every state the scanner reaches from its first mount when every
    answer of the camera and every blob comes before the next click, the
    filled slots are exactly the slots of the views whose capture lies behind
    the current step (none when idle or on error, all three when done); a
    filled slot holds the file named "<view>_capture.jpg" and has a preview,
    an empty slot has neither. *)
Theorem X10_filled_slots_follow_phase (evs : list Event) :
  slotsMatch (rendered (asyncRun (sequential evs) (settled init))).
Proof. rewrite sequential_run. apply run_slotsMatch, init_slotsMatch. Qed.




End ScannerAsyncFacts.

(** ** Analysis request: encoding, request, outcome *)
Module GeminiMore.
Import Gemini.

Lemma append_cons (c : ascii) (s1 s2 : string) :
  String c s1 +:+ s2 = String c (s1 +:+ s2).
Proof. reflexivity. Qed.

Lemma split_cons_sep (sep : ascii) (rest : string) :
  split sep (String sep rest) = EmptyString :: split sep rest.
Proof. simpl. by rewrite Ascii.eqb_refl. Qed.

Lemma split_nonempty (sep : ascii) (s : string) : split sep s <> [].
Proof.
  destruct s as [|c rest]; simpl; [done|].
  destruct (Ascii.eqb c sep); [done|]. by destruct (split sep rest).
Qed.

Lemma split_app (sep : ascii) (p rest : string) :
  lacks sep p = true ->
  split sep (p +:+ String sep rest) = p :: split sep rest.
Proof.
  induction p as [|c p IH]; intros L.
  - apply split_cons_sep.
  - simpl in L. apply andb_true_iff in L as [Hc L].
    rewrite append_cons. simpl. apply negb_true_iff in Hc. rewrite Hc.
    by rewrite (IH L).
Qed.

Lemma split_lacks (sep : ascii) (p : string) :
  lacks sep p = true -> split sep p = [p].
Proof.
  induction p as [|c p IH]; intros L; [done|].
  simpl in L. apply andb_true_iff in L as [Hc L].
  simpl. apply negb_true_iff in Hc. rewrite Hc. by rewrite (IH L).
Qed.

Lemma concat_split (sep : ascii) (s : string) :
  String.concat (String sep EmptyString) (split sep s) = s.
Proof.
  induction s as [|c rest IH]; [done|].
  simpl. destruct (Ascii.eqb_spec c sep) as [->|N].
  - pose proof (split_nonempty sep rest) as NE.
    destruct (split sep rest) as [|h t] eqn:E; [done|].
    change (String.concat (String sep EmptyString) (EmptyString :: h :: t))
      with (String sep (String.concat (String sep EmptyString) (h :: t))).
    by rewrite IH.
  - pose proof (split_nonempty sep rest) as NE.
    destruct (split sep rest) as [|h t] eqn:E; [done|].
    destruct t as [|h' t'].
    + simpl in *. by rewrite IH.
    + change (String.concat (String sep EmptyString) (String c h :: h' :: t'))
        with (String c (String.concat (String sep EmptyString) (h :: h' :: t'))).
      by rewrite IH.
Qed.

Lemma split_concat (sep : ascii) (pieces : list string) :
  pieces <> [] -> forallb (lacks sep) pieces = true ->
  split sep (String.concat (String sep EmptyString) pieces) = pieces.
Proof.
  induction pieces as [|p pieces IH]; intros NE L; [done|].
  simpl in L. apply andb_true_iff in L as [Lp L].
  destruct pieces as [|q pieces].
  - simpl. by apply split_lacks.
  - change (String.concat (String sep EmptyString) (p :: q :: pieces))
      with (p +:+ String sep EmptyString +:+ String.concat (String sep EmptyString) (q :: pieces)).
    change (String sep EmptyString +:+ ?x) with (String sep x).
    rewrite split_app by done. by rewrite IH.
Qed.

(** X17: [split] and joining are inverse to each other: joining the pieces of a
    string with the separator gives the string back, and splitting the join
    of pieces that do not contain the separator gives the pieces back. *)
Theorem X17_split_and_join (sep : ascii) (s : string) (pieces : list string) :
  String.concat (String sep EmptyString) (split sep s) = s /\
  (pieces <> [] -> forallb (lacks sep) pieces = true ->
   split sep (String.concat (String sep EmptyString) pieces) = pieces).
Proof. split; [apply concat_split|apply split_concat]. Qed.

Lemma X17_split_and_join_witness :
  (["data:image/png;base64"; "AAAA"] <> [] /\
   forallb (lacks ",") ["data:image/png;base64"; "AAAA"] = true) /\
  split "," "data:image/png;base64,AAAA" = ["data:image/png;base64"; "AAAA"].
Proof.
  split; [split; [discriminate|reflexivity]|].
  apply (proj2 (X17_split_and_join "," EmptyString ["data:image/png;base64"; "AAAA"]));
    [discriminate|reflexivity].
Defined.

(** X18: the part made for a file carries the MIME type of the file and, for a
    data URL made of a header, a comma and a payload without further commas,
    exactly the payload; for a data URL without a comma it carries no data. *)
Theorem X18_part_carries_the_payload
    (readAsDataURL : File -> string) (file : File) (header payload : string) (w : World) :
  lacks "," header = true -> lacks "," payload = true ->
  (readAsDataURL file = header +:+ "," +:+ payload ->
   fileToGenerativePart readAsDataURL file w = (inr (InlineData (Some payload) (type file)), w)) /\
  (readAsDataURL file = header ->
   fileToGenerativePart readAsDataURL file w = (inr (InlineData None (type file)), w)).
Proof.
  intros Lh Lp. unfold fileToGenerativePart, ret. split; intros ->.
  - change ("," +:+ payload) with (String "," payload).
    rewrite split_app by done. by rewrite split_lacks.
  - by rewrite split_lacks.
Qed.

Lemma X18_part_carries_the_payload_witness :
  let file := mkFile "top_capture.jpg" 1700000000000 "image/jpeg" in
  (lacks "," "data:image/jpeg;base64" = true /\ lacks "," "AAAA" = true) /\
  fileToGenerativePart (fun _ => "data:image/jpeg;base64,AAAA") file quiet =
    (inr (InlineData (Some "AAAA") "image/jpeg"), quiet).
Proof.
  intros file. split; [split; reflexivity|].
  apply (proj1 (X18_part_carries_the_payload (fun _ => "data:image/jpeg;base64,AAAA") file
                  "data:image/jpeg;base64" "AAAA" quiet eq_refl eq_refl)).
  reflexivity.
Defined.

(** *** One call of [analyzeFootImage] *)

Section Service.

Variable J : Type.
Variable JSON_parse : string -> option J.
Variable trim : string -> string.
Variable readAsDataURL : File -> string.
Variable remote : Request -> Thrown + option string.

Abbreviation analyze := (analyzeFootImage J JSON_parse trim readAsDataURL remote).
Abbreviation request := (requestFor readAsDataURL).

Abbreviation outcome := (Gemini.outcome J JSON_parse trim readAsDataURL remote).

Lemma field_Some_key (k : ViewKey) (imageFiles : FootImages) (f : File) :
  field k imageFiles = Some f -> In k (objectKeys imageFiles).
Proof.
  unfold field, objectKeys.
  destruct (List.find _ imageFiles) as [entry|] eqn:F; [|done].
  intros _. apply find_some in F as [I E]. apply bool_decide_eq_true in E. subst k.
  by apply in_map.
Qed.

Lemma providedViews_nonempty (imageFiles : FootImages) :
  ~ emptySet imageFiles -> (length (providedViews imageFiles) =? 0)%nat = false.
Proof.
  intros NE. apply Nat.eqb_neq. intros L. apply NE. intros k.
  destruct (field k imageFiles) as [f|] eqn:F; [|done].
  exfalso. assert (In k (providedViews imageFiles)) as I.
  { apply filter_In. split; [by eapply field_Some_key|].
    rewrite F. apply bool_decide_eq_true. by eexists. }
  by destruct (providedViews imageFiles).
Qed.

Lemma emptySet_dec (imageFiles : FootImages) : emptySet imageFiles \/ ~ emptySet imageFiles.
Proof.
  destruct (field top imageFiles) eqn:T; [right; intros H; by rewrite H in T|].
  destruct (field side imageFiles) eqn:S; [right; intros H; by rewrite H in S|].
  destruct (field back imageFiles) eqn:B; [right; intros H; by rewrite H in B|].
  left. by intros [].
Qed.

Lemma analyze_nonempty (imageFiles : FootImages) (w : World) :
  ~ emptySet imageFiles -> analyze imageFiles w = outcome imageFiles w.
Proof.
  intros NE. pose proof (providedViews_nonempty imageFiles NE) as L.
  unfold Gemini.outcome, requestFor, analyzeFootImage, tryCatch.
  fold (providedViews imageFiles). cbv zeta. rewrite L.
  unfold keys. cbn [flat_map viewLabel].
  cbv beta delta [bind pushView fileToGenerativePart generateContent consoleError throw ret].
  destruct (field top imageFiles), (field side imageFiles), (field back imageFiles);
    cbv beta iota; cbn [app fst snd console requests];
    (match goal with |- context [remote ?r] => destruct (remote r) as [e|[text|]] end);
    cbn [app fst snd console requests]; try reflexivity;
    (match goal with |- context [JSON_parse ?x] => destruct (JSON_parse x) end);
    reflexivity.
Qed.

(** X19: for an image set with at least one file, all of them files for which
    the reader delivers a data URL, a call sends exactly one request,
    whatever the remote model answers: the prompt naming the provided views
    in the order of the keys of the object, then, in the order top, side,
    back, for each provided view its label and its encoded image, and
    nothing for a view without a file. *)
Theorem X19_one_request_with_the_provided_views (imageFiles : FootImages) (w : World) :
  ~ emptySet imageFiles ->
  requests (snd (analyze imageFiles w)) =
    requests w ++
    [ {| model := "gemini-2.5-flash";
         parts :=
           TextPart (promptHead +:+
                     String.concat ", " (map keyName (providedViews imageFiles)) +:+
                     promptTail)
           :: flat_map (fun k => match field k imageFiles with
                                 | Some file =>
                                     [TextPart (viewLabel k);
                                      InlineData (split "," (readAsDataURL file) !! 1%nat)
                                                 (type file)]
                                 | None => []
                                 end) keys;
         responseMimeType := "application/json" |} ].
Proof.
  intros NE. rewrite analyze_nonempty by done. unfold Gemini.outcome.
  destruct (remote (request imageFiles)) as [e|[text|]]; try done.
  by destruct (JSON_parse (trim text)).
Qed.

(** X20: a call returns a result exactly when the image set has a file, the remote
    model answers the request with a text and [JSON.parse] accepts the
    trimmed text; the result is then the parsed value as it is, and nothing
    is written to the console. *)
Theorem X20_success_is_the_parsed_answer
    (imageFiles : FootImages) (w : World) (result : J) :
  (fst (analyze imageFiles w) = inr result <->
   ~ emptySet imageFiles /\
   exists text, remote (request imageFiles) = inr (Some text) /\
                JSON_parse (trim text) = Some result) /\
  (fst (analyze imageFiles w) = inr result ->
   console (snd (analyze imageFiles w)) = console w).
Proof.
  destruct (emptySet_dec imageFiles) as [E|NE].
  - assert (fst (analyze imageFiles w) = inl (Error genericMessage)) as F.
    { unfold analyzeFootImage, tryCatch.
      rewrite (GeminiFacts.providedViews_empty imageFiles E). reflexivity. }
    rewrite F. split; [|discriminate]. split; [discriminate|]. by intros [NE _].
  - rewrite analyze_nonempty by done. unfold Gemini.outcome.
    destruct (remote (request imageFiles)) as [e|[text|]] eqn:R; simpl.
    + split; [|discriminate]. split; [discriminate|]. by intros [_ (text & ? & _)].
    + destruct (JSON_parse (trim text)) as [r|] eqn:P; simpl.
      * split; [|done]. split.
        -- intros [= <-]. split; [done|]. by exists text.
        -- intros [_ (text' & [= <-] & P')]. congruence.
      * split; [|discriminate]. split; [discriminate|].
        intros [_ (text' & [= <-] & P')]. congruence.
    + split; [|discriminate]. split; [discriminate|]. by intros [_ (text & ? & _)].
Qed.

(** X21: a call never sends more than one request, and it writes exactly one
    console line when it fails; when the remote model rejects the request,
    that line carries the rejection as it came. *)
Theorem X21_one_console_line_per_failure
    (imageFiles : FootImages) (w : World) (e : Thrown) :
  (requests (snd (analyze imageFiles w)) = requests w \/
   exists r, requests (snd (analyze imageFiles w)) = requests w ++ [r]) /\
  (forall failure, fst (analyze imageFiles w) = inl failure ->
     exists cause, console (snd (analyze imageFiles w)) = console w ++ [(failureLabel, cause)]) /\
  (~ emptySet imageFiles -> remote (request imageFiles) = inl e ->
     console (snd (analyze imageFiles w)) = console w ++ [(failureLabel, e)]).
Proof.
  destruct (emptySet_dec imageFiles) as [E|NE].
  - assert (analyze imageFiles w =
            (inl (Error genericMessage),
             mkWorld (console w ++ [(failureLabel, Error noImagesMessage)]) (requests w))) as F.
    { unfold analyzeFootImage, tryCatch.
      rewrite (GeminiFacts.providedViews_empty imageFiles E). reflexivity. }
    rewrite F. simpl. split; [by left|]. split; [by eexists|done].
  - rewrite analyze_nonempty by done. unfold Gemini.outcome.
    destruct (remote (request imageFiles)) as [e'|[text|]] eqn:R; simpl.
    + split; [right; by eexists|]. split; [by eexists|]. by intros _ [= ->].
    + destruct (JSON_parse (trim text)) as [r|] eqn:P; simpl.
      * split; [right; by eexists|]. split; [discriminate|]. by intros _ [=].
      * split; [right; by eexists|]. split; [by eexists|]. by intros _ [=].
    + split; [right; by eexists|]. split; [by eexists|]. by intros _ [=].
Qed.

End Service.

Lemma backThenTop_nonempty : ~ emptySet backThenTop.
Proof. intros H. discriminate (H top). Qed.

Lemma topOnly_nonempty : ~ emptySet topOnly.
Proof. intros H. discriminate (H top). Qed.

Lemma X19_one_request_with_the_provided_views_witness :
  ~ emptySet backThenTop /\
  map parts (requests (snd (analyzeFootImage string Some id dataURL1 remoteDown backThenTop quiet))) =
    [[TextPart (promptHead +:+ "back, top" +:+ promptTail);
      TextPart "Top View of the foot:";
      InlineData (Some "AAAA") "image/jpeg";
      TextPart "Back View (Heel) of the foot:";
      InlineData (Some "AAAA") "image/jpeg"]].
Proof.
  split; [exact backThenTop_nonempty|].
  rewrite (X19_one_request_with_the_provided_views string Some id
             dataURL1 remoteDown backThenTop quiet backThenTop_nonempty).
  reflexivity.
Defined.

Lemma X20_success_is_the_parsed_answer_witness :
  fst (analyzeFootImage string Some id dataURL1 remote0 topOnly quiet) = inr "{}" /\
  console (snd (analyzeFootImage string Some id dataURL1 remote0 topOnly quiet)) = [].
Proof.
  split; [reflexivity|].
  apply (proj2 (X20_success_is_the_parsed_answer string Some id
                  dataURL1 remote0 topOnly quiet "{}")).
  reflexivity.
Defined.

Lemma X21_one_console_line_per_failure_witness :
  (~ emptySet topOnly /\
   remoteDown (requestFor dataURL1 topOnly) = inl (Error "503")) /\
  console (snd (analyzeFootImage string Some id dataURL1 remoteDown topOnly quiet)) =
    [(failureLabel, Error "503")].
Proof.
  split; [split; [exact topOnly_nonempty|reflexivity]|].
  apply (proj2 (proj2 (X21_one_console_line_per_failure string Some id
                         dataURL1 remoteDown topOnly quiet
                         (Error "503"))) topOnly_nonempty).
  reflexivity.
Defined.

End GeminiMore.

(** ** Consultation summary: the two lists *)
Module TelemedicineMore.
Import Telemedicine.

Lemma orNA_nonempty (c : ascii) (s : string) : orNA (Some (String c s)) = String c s.
Proof. reflexivity. Qed.

Lemma bulleted_nonempty (x : string) (l : list string) :
  exists c s, String.concat nl (map (fun s => "• " +:+ s) (x :: l)) = String c s.
Proof.
  destruct l as [|y l]; simpl.
  - by eexists _, _.
  - by eexists _, _.
Qed.

(** X22: the footwear and the clinical section of the message show "N/A" for an
    empty list and otherwise one bulleted line per entry, in the order of the
    list. *)
Theorem X22_lists_render_bullets_or_placeholder (r : AnalysisResult) :
  let body (l : list string) :=
    match l with
    | [] => "N/A"
    | _ :: _ => String.concat nl (map (fun s => "• " +:+ s) l)
    end in
  analysisSummaryForEmail (Some r) =
    template (orNA (Some (archType r)))
             (formatPotentialIssues (Some (potentialIssues r)))
             (orNA (Some (summary r)))
             (body (footwearSuggestions r))
             (body (clinicalRecommendations r))
             (numberOrNA (Some (confidenceScore r))).
Proof.
  intros body. unfold analysisSummaryForEmail.
  cbn [fmap option_fmap option_map bullets].
  assert (forall l, orNA (Some (String.concat nl (map (fun s => "• " +:+ s) l))) = body l) as H.
  { intros [|x l]; [done|]. destruct (bulleted_nonempty x l) as (c & s & E).
    unfold body. rewrite E. apply orNA_nonempty. }
  by rewrite !H.
Qed.

End TelemedicineMore.

(** ** The application *)
Module AppFacts.
Import App.
Import (hints) Scanner.

Section App.

Variable J : Type.
Variable JSON_parse : string -> option J.
Variable trim : string -> string.
Variable readAsDataURL : File -> string.
Variable remote : Gemini.Request -> Gemini.Thrown + option string.
Variable truthy : J -> bool.

Abbreviation State := (App.State J).
Abbreviation init := (App.init J).
Abbreviation step := (App.step J JSON_parse trim readAsDataURL remote).
Abbreviation run := (App.run J JSON_parse trim readAsDataURL remote).
Abbreviation analyzeStart := (App.analyzeStart J).
Abbreviation analyzeSettle := (App.analyzeSettle J JSON_parse trim readAsDataURL remote).
Abbreviation analyze := (Gemini.analyzeFootImage J JSON_parse trim readAsDataURL remote).
Abbreviation panel st :=
  (Dashboard.AnalysisDashboard J truthy (analysisResult J st) (isLoading J st) (error J st)).

(** *** The image set follows the mounted child *)

Lemma handed_over (l : list (Slots (option File))) (st : State) :
  let st' := foldl (fun st files => handleImagesChange J files st) st l in
  mode J st' = mode J st /\ uploader J st' = uploader J st /\ scanner J st' = scanner J st /\
  retired J st' = retired J st /\
  pending J st' = pending J st /\ isLoading J st' = isLoading J st /\
  world J st' = world J st /\
  imageFiles J st' = default (imageFiles J st) (last l).
Proof.
  revert st. induction l as [|x l IH]; intros st; [done|].
  simpl. destruct (IH (handleImagesChange J x st)) as (-> & -> & -> & -> & -> & -> & -> & ->).
  simpl. repeat split. rewrite last_cons. by destruct (last l).
Qed.

Lemma scannerEvent_follows (e : Scanner.AsyncEvent) (st : State) :
  mode J st = scan -> imagesFollowChild J st ->
  imagesFollowChild J (scannerEvent J e st).
Proof.
  intros M H. unfold imagesFollowChild in *. unfold scannerEvent, handOver.
  match goal with |- context [foldl ?f ?a ?l] =>
    destruct (handed_over l a) as (-> & _ & -> & _ & _ & _ & _ & Ei) end.
  simpl in Ei |- *. rewrite M in *. rewrite Ei.
  destruct (ScannerAsyncFacts.asyncStep_emitted e (scanner J st)) as [[Ee Ef]|Ee].
  - rewrite Ee, drop_all. simpl. rewrite Ef. exact H.
  - rewrite Ee, drop_app_length. simpl. by right.
Qed.

Lemma retiredEvent_camera (i : nat) (granted : option nat) (st : State) :
  imagesFollowChild J st ->
  imagesFollowChild J (retiredEvent J i (Scanner.CameraAnswers granted) st).
Proof.
  intros H. unfold retiredEvent. destruct (retired J st !! i) as [r|]; [|done].
  unfold handOver, imagesFollowChild in *.
  match goal with |- context [foldl ?f ?a ?l] =>
    destruct (handed_over l a) as (-> & -> & -> & _ & _ & _ & _ & Ei) end.
  rewrite Ei. clear Ei. cbn [Scanner.asyncStep Scanner.rendered Scanner.cameraRequests].
  destruct (Scanner.cameraRequests r); [|destruct granted];
    cbn; rewrite drop_all; exact H.
Qed.

Lemma step_follows (ev : Event) (st : State) :
  isLateBlob ev = false -> imagesFollowChild J st -> imagesFollowChild J (step ev st).
Proof.
  intros Late H. destruct ev as [m|op|e|i e| | | |]; cbn [App.step].
  - unfold setMode. destruct (mode J st) eqn:M, m; try done;
      unfold imagesFollowChild; simpl; auto.
  - destruct (bool_decide (mode J st = upload)) eqn:M; [|done].
    apply bool_decide_eq_true in M. destruct (negb (isLoading J st)); [|done]. simpl.
    unfold imagesFollowChild in *. rewrite M in H.
    destruct op as [env [fs|]|i|i k]; simpl; by rewrite M.
  - destruct (bool_decide (mode J st = scan)) eqn:M; [|done].
    apply bool_decide_eq_true in M.
    destruct (scannerTakes J st e); [|done]. simpl.
    by apply scannerEvent_follows.
  - destruct e as [|granted|f|n|]; try done. cbn [isContinuation].
    by apply retiredEvent_camera.
  - destruct (atLeastOneImageProvided J st && negb (isLoading J st)); [|done].
    unfold App.analyzeStart. by destruct (_ =? 0)%nat.
  - unfold App.analyzeSettle. destruct (pending J st) as [images|]; [|done].
    by destruct (Gemini.analyzeFootImage _ _ _ _ _ _ _) as [[e|r] w].
  - done.
  - done.
Qed.

(** X23: as long as no blob is delivered to a scanner that was unmounted in
    the meantime, in every state the application reaches, however late the
    other continuations come, in upload mode its image set is the
    projection of the uploader's images and tags, and in scan mode it is
    the set of files the scanner holds unless the scanner holds none (after
    a reset, or after the switch from the uploader, whose images then stay
    in the image set). *)
Theorem X23_image_set_follows_the_child (evs : list Event) :
  forallb (fun ev => negb (isLateBlob ev)) evs = true ->
  imagesFollowChild J (run evs init).
Proof.
  assert (forall st, forallb (fun ev => negb (isLateBlob ev)) evs = true ->
                     imagesFollowChild J st -> imagesFollowChild J (run evs st)) as H.
  { induction evs as [|ev evs IH]; intros st L Hst; [done|].
    simpl in L. apply andb_true_iff in L as [L1 L2]. apply negb_true_iff in L1.
    simpl. by apply IH, step_follows. }
  intros L. apply H; [exact L|reflexivity].
Qed.

(** *** Analysing *)

Lemma provided_nonempty (images : Slots (option File)) :
  (length (Gemini.objectKeys (imagesToAnalyze images)) =? 0)%nat = false ->
  ~ Gemini.emptySet (imagesToAnalyze images).
Proof.
  intros H E. destruct images as [[t|] [s|] [b|]]; try discriminate H;
    (discriminate (E top) || discriminate (E side) || discriminate (E back)).
Qed.

Lemma atLeastOne_provided (st : State) :
  atLeastOneImageProvided J st =
  negb (length (Gemini.objectKeys (imagesToAnalyze (imageFiles J st))) =? 0)%nat.
Proof.
  unfold atLeastOneImageProvided. by destruct (imageFiles J st) as [[t|] [s|] [b|]].
Qed.

Lemma step_pendingSound (ev : Event) (st : State) :
  pendingSound J st -> pendingSound J (step ev st).
Proof.
  intros H. destruct ev as [m|op|e|i e| | | |]; cbn [App.step].
  - unfold setMode. destruct (mode J st), m; done.
  - destruct (_ && _); [|done]. by destruct op as [env [fs|]|i|i k].
  - destruct (_ && _); [|done]. unfold scannerEvent, handOver, pendingSound in *.
    match goal with |- context [foldl ?f ?a ?l] =>
      destruct (handed_over l a) as (_ & _ & _ & _ & -> & -> & _ & _) end.
    done.
  - destruct (isContinuation e); [|done]. unfold retiredEvent.
    destruct (retired J st !! i) as [r|]; [|done]. unfold handOver, pendingSound in *.
    match goal with |- context [foldl ?f ?a ?l] =>
      destruct (handed_over l a) as (_ & _ & _ & _ & -> & -> & _ & _) end.
    done.
  - destruct (atLeastOneImageProvided J st && negb (isLoading J st)); [|done].
    unfold App.analyzeStart. destruct (_ =? 0)%nat eqn:Z; [done|].
    unfold pendingSound. simpl. split; [done|]. by apply provided_nonempty.
  - unfold App.analyzeSettle. destruct (pending J st) as [images|] eqn:P; [|done].
    by destruct (Gemini.analyzeFootImage _ _ _ _ _ _ _) as [[e|r] w].
  - done.
  - done.
Qed.

(** X24: in every state the application reaches, however late the
    continuations of its scanners come, an analysis is shown as running
    exactly while a call of the analysis is pending, and the image set of a
    pending call has at least one image: the application never hands an
    empty image set to the analysis. *)
Theorem X24_never_analyses_an_empty_set (evs : list Event) :
  pendingSound J (run evs init).
Proof.
  assert (forall st, pendingSound J st -> pendingSound J (run evs st)) as H.
  { induction evs as [|ev evs IH]; intros st Hst; [done|].
    simpl. by apply IH, step_pendingSound. }
  apply H. reflexivity.
Qed.

Lemma click_settled (st : State) :
  atLeastOneImageProvided J st = true ->
  analyzeSettle (analyzeStart st) =
  match analyze (imagesToAnalyze (imageFiles J st)) (world J st) with
  | (inr result, w) =>
      mkState J (mode J st) (imageFiles J st) (Some result) false None
              (isTelemedicineModalOpen J st) (uploader J st) (scanner J st) (retired J st) None w
  | (inl e, w) =>
      mkState J (mode J st) (imageFiles J st) None false (Some (message e))
              (isTelemedicineModalOpen J st) (uploader J st) (scanner J st) (retired J st) None w
  end.
Proof.
  intros A. rewrite atLeastOne_provided in A. apply negb_true_iff in A.
  unfold App.analyzeStart. cbv zeta. rewrite A. unfold App.analyzeSettle. simpl.
  by destruct (analyze (imagesToAnalyze (imageFiles J st)) (world J st)) as [[e|r] w].
Qed.

(** The object the application hands to the analysis has its keys in the
    order top, side, back, and holds the files of the image set. *)
Lemma imagesToAnalyze_views (images : Slots (option File)) (k : ViewKey) :
  Gemini.field k (imagesToAnalyze images) = get k images /\
  Gemini.providedViews (imagesToAnalyze images) =
    List.filter (fun k => bool_decide (is_Some (get k images))) keys.
Proof. by destruct images as [[t|] [s|] [b|]], k. Qed.


(** X26: the result panel around a click on Analyze with at least one image: it
    shows the loading state until the call settles; then it shows the error
    state with the generic message when the call failed, the result when the
    call returned a truthy value, and the initial state when it returned a
    falsy one. *)
Theorem X26_panel_after_analysis (st : State) :
  atLeastOneImageProvided J st = true ->
  panel (analyzeStart st) = Dashboard.LoadingState J /\
  panel (analyzeSettle (analyzeStart st)) =
    match fst (analyze (imagesToAnalyze (imageFiles J st)) (world J st)) with
    | inr result =>
        if truthy result then Dashboard.ResultDisplay J result else Dashboard.InitialState J
    | inl _ => Dashboard.ErrorState J Gemini.genericMessage
    end.
Proof.
  intros A. split.
  - pose proof A as A'. rewrite atLeastOne_provided in A'. apply negb_true_iff in A'.
    unfold App.analyzeStart. cbv zeta. by rewrite A'.
  - rewrite (click_settled st A).
    destruct (analyze (imagesToAnalyze (imageFiles J st)) (world J st)) as [[e|r] w] eqn:R;
      simpl; [|done].
    assert (fst (analyze (imagesToAnalyze (imageFiles J st)) (world J st)) = inl e) as F
      by (by rewrite R).
    unfold Gemini.analyzeFootImage in F. apply GeminiFacts.tryCatch_generic in F.
    by subst e.
Qed.

End App.

Lemma X23_image_set_follows_the_child_witness :
  forallb (fun ev => negb (isLateBlob ev)) thenScan = true /\
  imagesFollowChild string (App.run string Some id dataURL0 Gemini.remote0 thenScan
                              (App.init string)).
Proof.
  split; [reflexivity|].
  apply (X23_image_set_follows_the_child string Some id dataURL0 Gemini.remote0 thenScan).
  reflexivity.
Defined.

(** A blob delivered after the switch to the uploader puts the captured
    file into the image set, although the uploader shows no image. *)
Example late_blob_fills_the_image_set :
  let st := App.run string Some id dataURL0 Gemini.remote0 lateBlob (App.init string) in
  mode string st = upload /\
  Uploader.taggedFiles (uploader string st) = allNull /\
  imageFiles string st =
    mkSlots (Some (mkFile "top_capture.jpg" 1700000000000 "image/jpeg")) None None /\
  atLeastOneImageProvided string st = true.
Proof. repeat split. Qed.


Lemma X26_panel_after_analysis_witness :
  let st := App.run string Some id dataURL0 Gemini.remoteDown oneTagged (App.init string) in
  atLeastOneImageProvided string st = true /\
  Dashboard.AnalysisDashboard string nonEmptyString
    (analysisResult string (App.analyzeSettle string Some id dataURL0 Gemini.remoteDown
                              (App.analyzeStart string st)))
    (isLoading string (App.analyzeSettle string Some id dataURL0 Gemini.remoteDown
                         (App.analyzeStart string st)))
    (error string (App.analyzeSettle string Some id dataURL0 Gemini.remoteDown
                     (App.analyzeStart string st))) =
  Dashboard.ErrorState string Gemini.genericMessage.
Proof.
  intros st. split; [reflexivity|].
  apply (proj2 (X26_panel_after_analysis string Some id dataURL0 Gemini.remoteDown
                  nonEmptyString st eq_refl)).
Defined.

(** After the switch to the live scan the image tagged in the uploader is
    still the image set of the application, and Analyze is still offered. *)
Example uploaded_image_survives_the_switch :
  let st := App.run string Some id dataURL0 Gemini.remote0 thenScan (App.init string) in
  mode string st = scan /\
  imageFiles string st = mkSlots (Some (Uploader.photo "a.png")) None None /\
  atLeastOneImageProvided string st = true.
Proof. repeat split. Qed.

End AppFacts.
